(** * Disclosure feed: the scraper pipelines and the browser widget

    A shallow embedding of the three JavaScript sources

    - [tools/scrape-otc-and-sec.js]            (module [Tools]),
    - the second pipeline script, which has its own [toISO], [getJson]
      and a guarded webpage scrape            (module [Script]),
    - [script.js], the feed consumer           (module [Widget]),

    over a small model of the JavaScript runtime (module [JS]): strings as
    sequences of UTF-16 code units, the three kinds of value the records
    carry (a string, [null], [undefined]), an insertion-ordered [Map],
    [Array.prototype.sort] driven by a comparator, the ECMAScript day and
    year arithmetic behind [Date], and completions that are either a value
    or a thrown exception. *)

From Stdlib Require Import ZArith NArith QArith List String Ascii Bool Lia.
From Stdlib Require Import Sorting.Permutation Sorting.Sorted.
Import ListNotations.

Open Scope Z_scope.

(* ================================================================== *)
(** * The runtime model *)
(* ================================================================== *)

Module JS.

(** A string is its sequence of UTF-16 code units. *)
Definition jsstring := list N.

(** Source literals are written as Rocq strings and read unit by unit. *)
Definition js (s : string) : jsstring :=
  List.map N_of_ascii (list_ascii_of_string s).

Definition c_quot : N := 34%N.   (* the double quote *)
Definition c_amp : N := 38%N.   (* & *)
Definition c_apos : N := 39%N.   (* ' *)
Definition c_dash : N := 45%N.   (* - *)
Definition c_zero : N := 48%N.   (* 0 *)
Definition c_lt : N := 60%N.   (* < *)
Definition c_gt : N := 62%N.   (* > *)

Fixpoint str_eqb (s t : jsstring) : bool :=
  match s, t with
  | [], [] => true
  | a :: s', b :: t' => N.eqb a b && str_eqb s' t'
  | _, _ => false
  end.

(** [s < t] on two strings: code unit by code unit, a proper prefix is
    smaller. *)
Fixpoint str_ltb (s t : jsstring) : bool :=
  match s, t with
  | _, [] => false
  | [], _ :: _ => true
  | a :: s', b :: t' =>
      if N.ltb a b then true
      else if N.eqb a b then str_ltb s' t' else false
  end.

(** The values that occur in the fields of a record and of a filings
    response: a string, [null], or [undefined] for what is absent.  (Numbers,
    booleans and nested objects do not occur in the fields the scripts read.) *)
Inductive value : Type :=
| VUndefined
| VNull
| VStr (s : jsstring).

Definition truthy (v : value) : bool :=
  match v with
  | VStr (_ :: _) => true
  | _ => false
  end.

(** ToString, as applied by template literals and by [String.prototype.replace]
    to the result of its callback. *)
Definition ToString (v : value) : jsstring :=
  match v with
  | VUndefined => js "undefined"
  | VNull => js "null"
  | VStr s => s
  end.

Definition value_eqb (a b : value) : bool :=
  match a, b with
  | VUndefined, VUndefined => true
  | VNull, VNull => true
  | VStr s, VStr t => str_eqb s t
  | _, _ => false
  end.

(** Numbers: only their order and the printing of integers is used. *)
Inductive number : Type :=
| NaN
| NegInf
| Finite (q : Q)
| PosInf.

Definition num_ltb (a b : number) : bool :=
  match a, b with
  | NaN, _ | _, NaN => false
  | NegInf, NegInf => false
  | NegInf, _ => true
  | _, NegInf => false
  | PosInf, _ => false
  | Finite _, PosInf => true
  | Finite p, Finite q =>
      match Qcompare p q with Lt => true | _ => false end
  end.

(** What the language leaves to the engine, or what this development does not
    spell out, is a parameter of the model:
    - [StringToNumber_other]: the numeric value of a string that is not a
      plain run of decimal digits below 2^53;
    - [NumberToString_other]: the printing of a finite number that is not an
      integer below 10^21 in magnitude;
    - [Date_parse_other]: the time value [Date.parse] gives a string that is
      not a calendar date written [YYYY-MM-DD] (the other forms of the date
      time string format, and the engine's own fallback formats); [None] is
      an invalid date. *)
Class Engine : Type := {
  StringToNumber_other : jsstring -> number;
  NumberToString_other : number -> jsstring;
  Date_parse_other : jsstring -> option Z
}.

(** Completions: a value, or a thrown exception with its message. *)
Inductive completion (A : Type) : Type :=
| Normal (a : A)
| Throw (msg : jsstring).
Arguments Normal {A} a.
Arguments Throw {A} msg.

Definition bind {A B} (c : completion A) (k : A -> completion B) : completion B :=
  match c with
  | Normal a => k a
  | Throw m => Throw m
  end.

Notation "x <- c ;; k" := (bind c (fun x => k))
  (at level 61, c at next level, right associativity).

(** ** Decimal digits *)

Definition is_digit (c : N) : bool := N.leb 48%N c && N.leb c 57%N.

Definition digit_val (c : N) : Z := Z.of_N c - 48.

Definition digit_char (d : Z) : N := Z.to_N (d + 48).

(** Value of a run of digits, most significant first. *)
Definition digits_val (s : jsstring) : Z :=
  fold_left (fun acc c => 10 * acc + digit_val c) s 0.

(** The decimal digits of a non-negative integer, no leading zero. *)
Fixpoint dec_digits (fuel : nat) (z : Z) (acc : jsstring) : jsstring :=
  match fuel with
  | O => acc
  | S f =>
      let acc' := digit_char (z mod 10) :: acc in
      if z <? 10 then acc' else dec_digits f (z / 10) acc'
  end.

Definition dec_of_Z (z : Z) : jsstring :=
  if z <? 0 then c_dash :: dec_digits 400 (- z) []
  else dec_digits 400 z [].

(** Width-[n] zero-padded decimal of [z] (its [n] low digits). *)
Fixpoint pad (n : nat) (z : Z) : jsstring :=
  match n with
  | O => []
  | S n' => pad n' (z / 10) ++ [digit_char (z mod 10)]
  end.

Section WithEngine.
Context {E : Engine}.

Definition StringToNumber (s : jsstring) : number :=
  match s with
  | [] => Finite 0
  | _ =>
      if forallb is_digit s && (digits_val s <? 2 ^ 53)
      then Finite (inject_Z (digits_val s))
      else StringToNumber_other s
  end.

Definition ToNumber (v : value) : number :=
  match v with
  | VUndefined => NaN
  | VNull => Finite 0
  | VStr s => StringToNumber s
  end.

Definition NumberToString (n : number) : jsstring :=
  match n with
  | NaN => js "NaN"
  | PosInf => js "Infinity"
  | NegInf => js "-Infinity"
  | Finite q =>
      let r := Qred q in
      if Pos.eqb (Qden r) 1 && (Z.abs (Qnum r) <? 10 ^ 21)
      then dec_of_Z (Qnum r)
      else NumberToString_other n
  end.

(** The relational operator [a < b]. *)
Definition js_lt (a b : value) : bool :=
  match a, b with
  | VStr s, VStr t => str_ltb s t
  | _, _ => num_ltb (ToNumber a) (ToNumber b)
  end.

End WithEngine.

(** ** [String.prototype.replace] with a global character-class pattern

    [s.replace(/[...]/g, f)]: every code unit in the class is replaced by the
    string value of [f] applied to it, the others are kept. *)
Fixpoint replace_class (cls : N -> bool) (f : N -> value) (s : jsstring) : jsstring :=
  match s with
  | [] => []
  | c :: s' =>
      (if cls c then ToString (f c) else [c]) ++ replace_class cls f s'
  end.

(** Property lookup [obj[c]] in an object literal keyed by one-unit strings. *)
Fixpoint lookup (c : N) (obj : list (N * jsstring)) : value :=
  match obj with
  | [] => VUndefined
  | (k, v) :: obj' => if N.eqb c k then VStr v else lookup c obj'
  end.

Definition in_class (cs : list N) (c : N) : bool :=
  existsb (N.eqb c) cs.

Fixpoint starts_with (p s : jsstring) : bool :=
  match p, s with
  | [], _ => true
  | a :: p', b :: s' => N.eqb a b && starts_with p' s'
  | _ :: _, [] => false
  end.

(** ** Time values and [Date]

    The day and year arithmetic of the language definition.  A time value is
    a number of milliseconds since the epoch; [None] is the invalid date. *)

Definition msPerDay : Z := 86400000.
Definition msPerHour : Z := 3600000.
Definition msPerMinute : Z := 60000.
Definition msPerSecond : Z := 1000.

Definition Day (t : Z) : Z := t / msPerDay.
Definition TimeWithinDay (t : Z) : Z := t mod msPerDay.

Definition is_leap (y : Z) : bool :=
  if negb (y mod 4 =? 0) then false
  else if negb (y mod 100 =? 0) then true
  else if negb (y mod 400 =? 0) then false
  else true.

Definition leap_days (y : Z) : Z := if is_leap y then 1 else 0.

Definition DaysInYear (y : Z) : Z := 365 + leap_days y.

Definition DayFromYear (y : Z) : Z :=
  365 * (y - 1970) + (y - 1969) / 4 - (y - 1901) / 100 + (y - 1601) / 400.

Definition TimeFromYear (y : Z) : Z := msPerDay * DayFromYear y.

(** [YearFromTime(t)] is the largest [y] with [TimeFromYear(y) <= t]: it is
    searched downwards from a year that is not below it. *)
Fixpoint year_search (fuel : nat) (y d : Z) : Z :=
  match fuel with
  | O => y
  | S f => if DayFromYear y <=? d then y else year_search f (y - 1) d
  end.

Definition year_above (d : Z) : Z :=
  1970 + (if d <? 0 then d / 366 else d / 365).

Definition YearFromTime (t : Z) : Z :=
  year_search 1000 (year_above (Day t)) (Day t).

Definition DayWithinYear (t : Z) : Z := Day t - DayFromYear (YearFromTime t).

Definition InLeapYear (t : Z) : Z := leap_days (YearFromTime t).

Definition MonthFromTime (t : Z) : Z :=
  let d := DayWithinYear t in
  let l := InLeapYear t in
  if d <? 31 then 0
  else if d <? 59 + l then 1
  else if d <? 90 + l then 2
  else if d <? 120 + l then 3
  else if d <? 151 + l then 4
  else if d <? 181 + l then 5
  else if d <? 212 + l then 6
  else if d <? 243 + l then 7
  else if d <? 273 + l then 8
  else if d <? 304 + l then 9
  else if d <? 334 + l then 10
  else 11.

Definition DateFromTime (t : Z) : Z :=
  let d := DayWithinYear t in
  let l := InLeapYear t in
  match MonthFromTime t with
  | 0 => d + 1
  | 1 => d - 30
  | 2 => d - 58 - l
  | 3 => d - 89 - l
  | 4 => d - 119 - l
  | 5 => d - 150 - l
  | 6 => d - 180 - l
  | 7 => d - 211 - l
  | 8 => d - 242 - l
  | 9 => d - 272 - l
  | 10 => d - 303 - l
  | _ => d - 333 - l
  end.

Definition HourFromTime (t : Z) : Z := (t / msPerHour) mod 24.
Definition MinFromTime (t : Z) : Z := (t / msPerMinute) mod 60.
Definition SecFromTime (t : Z) : Z := (t / msPerSecond) mod 60.
Definition msFromTime (t : Z) : Z := t mod msPerSecond.

(** Day number of the first day of month [mn] (0 to 11) in a year with [l]
    leap days. *)
Definition month_start (mn l : Z) : Z :=
  match mn with
  | 0 => 0
  | 1 => 31
  | 2 => 59 + l
  | 3 => 90 + l
  | 4 => 120 + l
  | 5 => 151 + l
  | 6 => 181 + l
  | 7 => 212 + l
  | 8 => 243 + l
  | 9 => 273 + l
  | 10 => 304 + l
  | _ => 334 + l
  end.

Definition MakeDay (year month date : Z) : Z :=
  let ym := year + month / 12 in
  let mn := month mod 12 in
  DayFromYear ym + month_start mn (leap_days ym) + date - 1.

Definition MakeDate (day time : Z) : Z := day * msPerDay + time.

Definition TimeClip (t : Z) : option Z :=
  if Z.abs t <=? 8640000000000000 then Some t else None.

(** Number of days of month [m] (1 to 12) of year [y]. *)
Definition DaysInMonth (y m : Z) : Z :=
  match m with
  | 1 | 3 | 5 | 7 | 8 | 10 | 12 => 31
  | 4 | 6 | 9 | 11 => 30
  | 2 => 28 + leap_days y
  | _ => 0
  end.

(** The shape [YYYY-MM-DD]: eight digits and two dashes. *)
Definition parse_date_only (s : jsstring) : option (Z * Z * Z) :=
  match s with
  | [y1; y2; y3; y4; h1; m1; m2; h2; d1; d2] =>
      if forallb is_digit [y1; y2; y3; y4; m1; m2; d1; d2]
         && N.eqb h1 c_dash && N.eqb h2 c_dash
      then Some (digits_val [y1; y2; y3; y4], digits_val [m1; m2], digits_val [d1; d2])
      else None
  | _ => None
  end.

Definition legal_date (y m d : Z) : bool :=
  (1 <=? m) && (m <=? 12) && (1 <=? d) && (d <=? DaysInMonth y m).

(** A canonical calendar date: the shape [YYYY-MM-DD] naming a day that
    exists. *)
Definition is_canonical (s : jsstring) : bool :=
  match parse_date_only s with
  | Some (y, m, d) => legal_date y m d
  | None => false
  end.

Section Dates.
Context {E : Engine}.

(** [Date.parse]: a date-only form is taken as UTC midnight of that day. *)
Definition Date_parse (s : jsstring) : option Z :=
  match parse_date_only s with
  | Some (y, m, d) =>
      if legal_date y m d
      then TimeClip (MakeDate (MakeDay y (m - 1) d) 0)
      else Date_parse_other s
  | None => Date_parse_other s
  end.

(** [new Date(v)] for a single argument: the time value of the new object. *)
Definition Date_new (v : value) : option Z :=
  match v with
  | VStr s => Date_parse s
  | VNull => Some 0
  | VUndefined => None
  end.

End Dates.

(** [isNaN(dt)] on a Date object. *)
Definition Date_isNaN (tv : option Z) : bool :=
  match tv with
  | Some _ => false
  | None => true
  end.

Definition year_string (y : Z) : jsstring :=
  if (0 <=? y) && (y <=? 9999) then pad 4 y
  else (if y <? 0 then js "-" else js "+") ++ pad 6 (Z.abs y).

(** [Date.prototype.toISOString]: a RangeError on an invalid date. *)
Definition toISOString (tv : option Z) : completion jsstring :=
  match tv with
  | None => Throw (js "RangeError: Invalid time value")
  | Some t =>
      Normal (year_string (YearFromTime t)
              ++ js "-" ++ pad 2 (MonthFromTime t + 1)
              ++ js "-" ++ pad 2 (DateFromTime t)
              ++ js "T" ++ pad 2 (HourFromTime t)
              ++ js ":" ++ pad 2 (MinFromTime t)
              ++ js ":" ++ pad 2 (SecFromTime t)
              ++ js "." ++ pad 3 (msFromTime t)
              ++ js "Z")
  end.

(** [s.slice(0, n)]. *)
Definition slice0 (n : nat) (s : jsstring) : jsstring := firstn n s.

(** ** [Map]: keys in insertion order

    [map.set(k, v)] overwrites the value of a key that is present, leaving
    the key where it is, and appends a new key at the end. *)
Definition jsmap (V : Type) : Type := list (jsstring * V).

Fixpoint map_set {V} (k : jsstring) (v : V) (m : jsmap V) : jsmap V :=
  match m with
  | [] => [(k, v)]
  | (k', v') :: m' =>
      if str_eqb k k' then (k', v) :: m' else (k', v') :: map_set k v m'
  end.

Fixpoint map_get {V} (k : jsstring) (m : jsmap V) : option V :=
  match m with
  | [] => None
  | (k', v') :: m' => if str_eqb k k' then Some v' else map_get k m'
  end.

(** [Array.from(map.values())]. *)
Definition map_values {V} (m : jsmap V) : list V := List.map snd m.

(** ** [Array.prototype.sort] with a comparator

    The language leaves the sequence of comparator calls to the engine.  The
    model is an insertion sort: the elements are taken from left to right and
    each is put in front of the first element already placed that the
    comparator orders after it ([cmp y x > 0]). *)
Fixpoint sort_insert {A} (cmp : A -> A -> Z) (x : A) (l : list A) : list A :=
  match l with
  | [] => [x]
  | y :: l' => if cmp y x >? 0 then x :: y :: l' else y :: sort_insert cmp x l'
  end.

Definition array_sort {A} (cmp : A -> A -> Z) (l : list A) : list A :=
  fold_left (fun acc x => sort_insert cmp x acc) l [].

(** [arr[i]]: [undefined] past the end. *)
Definition index (l : list value) (i : nat) : value := nth i l VUndefined.

(** [s.padStart(n, '0')]. *)
Definition padStart0 (n : nat) (s : jsstring) : jsstring :=
  repeat c_zero (n - List.length s) ++ s.

End JS.

Import JS.

(* ================================================================== *)
(** * String methods the widget and the ticker lookup use *)
(* ================================================================== *)

Module Text.

(** White space and line terminators, as [trim] strips them. *)
Definition is_space (c : N) : bool :=
  existsb (N.eqb c)
    [9; 10; 11; 12; 13; 32; 160; 5760; 8192; 8193; 8194; 8195; 8196; 8197; 8198;
     8199; 8200; 8201; 8202; 8232; 8233; 8239; 8287; 12288; 65279]%N.

Fixpoint trimStart (s : jsstring) : jsstring :=
  match s with
  | [] => []
  | c :: s' => if is_space c then trimStart s' else s
  end.

Definition trimEnd (s : jsstring) : jsstring := rev (trimStart (rev s)).

Definition trim (s : jsstring) : jsstring := trimEnd (trimStart s).

(** [hay.includes(needle)]. *)
Fixpoint includes (hay needle : jsstring) : bool :=
  starts_with needle hay
  || match hay with
     | [] => false
     | _ :: hay' => includes hay' needle
     end.

Definition is_ascii (c : N) : bool := N.ltb c 128.

Definition lower_ascii (c : N) : N :=
  if N.leb 65 c && N.leb c 90 then (c + 32)%N else c.

Definition upper_ascii (c : N) : N :=
  if N.leb 97 c && N.leb c 122 then (c - 32)%N else c.

(** Case mapping outside ASCII and collation follow the Unicode tables and
    the locale of the engine; they are parameters of the model.  On a string
    of ASCII code units the case mappings change the 26 letters only. *)
Class Locale : Type := {
  toLowerCase_other : jsstring -> jsstring;
  toUpperCase_other : jsstring -> jsstring;
  localeCompare : jsstring -> jsstring -> Z
}.

Definition toLowerCase {L : Locale} (s : jsstring) : jsstring :=
  if forallb is_ascii s then List.map lower_ascii s else toLowerCase_other s.

Definition toUpperCase {L : Locale} (s : jsstring) : jsstring :=
  if forallb is_ascii s then List.map upper_ascii s else toUpperCase_other s.

End Text.

Import Text.

(* ================================================================== *)
(** * script.js: the feed consumer *)
(* ================================================================== *)

Module Widget.

Definition PAGE_SIZE : Z := 8.

(** The object literal of [escapeHtml]. *)
Definition entities : list (N * jsstring) :=
  [ (c_amp,  js "&amp;");
    (c_lt,   js "&lt;");
    (c_gt,   js "&gt;");
    (c_quot, js "&quot;");
    (c_apos, js "&#039;") ].

(** [escapeHtml(s)]: a global replace over the class of the five characters
    ampersand, less-than, greater-than, double quote and apostrophe, whose
    callback looks the matched character up in the object literal. *)
Definition escapeHtml (s : jsstring) : jsstring :=
  replace_class (in_class [c_amp; c_lt; c_gt; c_quot; c_apos])
                (fun c => lookup c entities) s.

(** An entry of the working set, as [normalize] leaves it: three strings and
    the time value of a Date object. *)
Record entry : Type := mkEntry {
  e_title : jsstring;
  e_description : jsstring;
  e_link : jsstring;
  e_date : option Z
}.

(** The module-level variables. *)
Record state : Type := mkState {
  raw : list entry;
  filtered : list entry;
  page : Z
}.

(** What [renderPage] leaves in the document: for every card the escaped
    heading and paragraph, the three numbers of the status text, and the two
    button flags.  (The date text and the anchor come from locale formatting
    and [encodeURI], which are not part of this model.) *)
Record view : Type := mkView {
  cards : list (jsstring * jsstring);
  info_from : Z;
  info_to : Z;
  info_total : Z;
  prev_disabled : bool;
  next_disabled : bool
}.

(** [Math.ceil(a / b)] for a positive [b]. *)
Definition ceil_div (a b : Z) : Z := - ((- a) / b).

(** [s || d] on strings. *)
Definition or_default (s d : jsstring) : jsstring :=
  match s with
  | [] => d
  | _ => s
  end.

(** [arr.slice(start, stop)] for [0 <= start <= stop]. *)
Definition slice {A} (start stop : Z) (l : list A) : list A :=
  firstn (Z.to_nat (stop - start)) (skipn (Z.to_nat start) l).

Definition card_of (it : entry) : jsstring * jsstring :=
  (escapeHtml (or_default (e_title it) (js "Untitled disclosure")),
   escapeHtml (or_default (e_description it) [])).

Definition renderPage (st : state) : state * view :=
  let total := Z.of_nat (List.length (filtered st)) in
  let pages := Z.max 1 (ceil_div total PAGE_SIZE) in
  let page' := Z.min (Z.max 1 (page st)) pages in
  let start := (page' - 1) * PAGE_SIZE in
  let shown := slice start (start + PAGE_SIZE) (filtered st) in
  ({| raw := raw st; filtered := filtered st; page := page' |},
   {| cards := List.map card_of shown;
      info_from := if total =? 0 then 0 else start + 1;
      info_to := Z.min (start + PAGE_SIZE) total;
      info_total := total;
      prev_disabled := page' <=? 1;
      next_disabled := page' >=? pages |}).



(** ** Loading, normalizing and filtering *)

(** An element of the feed, as far as [normalize] reads it. *)
Record feed_item : Type := mkFeedItem {
  f_title : value;
  f_description : value;
  f_link : value;
  f_date : value;
  f_datetime : value
}.

(** [String(v ?? "")]. *)
Definition string_or_empty (v : value) : jsstring :=
  match v with
  | VStr s => s
  | _ => []
  end.

Section Loading.
Context {E : Engine} {L : Locale}.

(** [normalize(item)]; [new Date(item.date || item.datetime || 0)], and the
    epoch when that date is invalid. *)
Definition normalize (it : feed_item) : entry :=
  let title := trim (string_or_empty (f_title it)) in
  let description := trim (string_or_empty (f_description it)) in
  let link := trim (string_or_empty (f_link it)) in
  let d := if truthy (f_date it) then Date_new (f_date it)
           else if truthy (f_datetime it) then Date_new (f_datetime it)
           else Some 0 in
  let okDate := if negb (Date_isNaN d) then d else Some 0 in
  {| e_title := title; e_description := description; e_link := link;
     e_date := okDate |}.

(** The callback of [raw.filter]. *)
Definition matches (query : jsstring) (it : entry) : bool :=
  match query with
  | [] => true
  | _ => includes (toLowerCase (e_title it)) query
         || includes (toLowerCase (e_description it)) query
  end.

(** [x.date - y.date]; an invalid date makes the difference NaN, which the
    sort takes as 0.  Only the sign of the result is used. *)
Definition date_minus (x y : entry) : Z :=
  match e_date x, e_date y with
  | Some p, Some q => p - q
  | _, _ => 0
  end.

(** The comparator of [filtered.sort], for the value of the sort control. *)
Definition by_mode (mode : jsstring) (a b : entry) : Z :=
  if str_eqb mode (js "date_desc") then date_minus b a
  else if str_eqb mode (js "date_asc") then date_minus a b
  else if str_eqb mode (js "title_asc")
       then localeCompare (or_default (e_title a) []) (or_default (e_title b) [])
  else if str_eqb mode (js "title_desc")
       then localeCompare (or_default (e_title b) []) (or_default (e_title a) [])
  else 0.

(** [applyFilters()], given the values of the search box and of the sort
    control. *)
Definition applyFilters (q_value sort_value : jsstring) (st : state) : state * view :=
  let query := toLowerCase (trim q_value) in
  let mode := sort_value in
  let filtered' := array_sort (by_mode mode) (filter (matches query) (raw st)) in
  renderPage {| raw := raw st; filtered := filtered'; page := 1 |}.

(** What [res.json()] can give: an array, an object (whose [items] is an
    array or is not), [null], or another value. An element of an array is an
    object, or [null], on which reading a property throws. *)
Inductive json_data : Type :=
| DArray (elements : list (option feed_item))
| DObject (items : option (list (option feed_item)))
| DNull
| DOther.

Record response : Type := mkResponse {
  ok : bool;
  status : Z;
  json : completion json_data
}.

Definition placeholder : entry :=
  {| e_title := js "Placeholder until first run";
     e_description :=
       js "This file will be replaced automatically by your publishing workflow.";
     e_link := js "#";
     e_date := Date_new (VStr (js "2025-01-01")) |}.

(** [items.slice(0, 2000).map(normalize)]. *)
Fixpoint map_normalize (items : list (option feed_item)) : completion (list entry) :=
  match items with
  | [] => Normal []
  | None :: _ => Throw (js "TypeError: Cannot read properties of null (reading 'title')")
  | Some it :: rest =>
      rest' <- map_normalize rest ;;
      Normal (normalize it :: rest')
  end.

(** The [try] block of [init] up to the assignment of [raw]. *)
Definition load (fetched : completion response) : completion (list entry) :=
  res <- fetched ;;
  if negb (ok res) then Throw (js "HTTP " ++ dec_of_Z (status res))
  else
    data <- json res ;;
    items <- match data with
             | DArray elements => Normal elements
             | DObject (Some elements) => Normal elements
             | DObject None => Normal []
             | DOther => Normal []
             | DNull => Throw (js "TypeError: Cannot read properties of null (reading 'items')")
             end ;;
    map_normalize (firstn 2000 items).

(** [init()]: the status text it leaves, and the state and view after its
    call of [applyFilters]. *)
Definition init (fetched : completion response) (q_value sort_value : jsstring)
  : jsstring * (state * view) :=
  match load fetched with
  | Normal raw' =>
      (match raw' with [] => js "No disclosures yet." | _ => [] end,
       applyFilters q_value sort_value {| raw := raw'; filtered := []; page := 1 |})
  | Throw _ =>
      (js "Could not load disclosures. Showing placeholder.",
       applyFilters q_value sort_value
         {| raw := [placeholder]; filtered := []; page := 1 |})
  end.

End Loading.

End Widget.

(* ================================================================== *)
(** * Records, responses and the outside world of the pipelines *)
(* ================================================================== *)

(** A disclosure record.  A property the object does not have reads as
    [undefined]. *)
Record item : Type := mkItem {
  source : value;
  title : value;
  date : value;
  description : value;
  link : value
}.

(** [filings.recent] of a submissions response: parallel arrays. *)
Record recent : Type := mkRecent {
  form : list value;
  filingDate : list value;
  accessionNumber : list value;
  primaryDocument : list value
}.

(** A submissions response: [json.cik] and [json?.filings?.recent]. *)
Record submissions : Type := mkSubmissions {
  cik : value;
  filings_recent : option recent
}.

(** What a run observes of the world: the environment variable, the outcome
    of the ticker lookup (a padded identifier, or [null]), the response to a
    GET of a submissions URL, the rows the page evaluation returns, and the
    outcome of writing the file. *)
Record world : Type := mkWorld {
  env_WRITE_PATH : value;
  resolveCikFromTicker : completion value;
  fetch_json : jsstring -> completion submissions;
  page_rows : completion (list item);
  writeFile : jsstring -> list item -> completion unit
}.

(** What a run does that can be observed. *)
Inductive event : Type :=
| ConsoleWarn (args : list jsstring)
| ConsoleError (msg : jsstring)
| ConsoleLog (msg : jsstring)
| FileWritten (path : jsstring) (items : list item)
| ProcessExit (code : Z).

(** The identity key: [`${x.title}|${x.link}|${x.date}`]. *)
Definition key (x : item) : jsstring :=
  ToString (title x) ++ js "|" ++ ToString (link x) ++ js "|" ++ ToString (date x).

(** [acc.replace(/-/g, '')]; a TypeError when [acc] is not a string. *)
Definition strip_dashes (acc : value) : completion jsstring :=
  match acc with
  | VStr a => Normal (replace_class (N.eqb c_dash) (fun _ => VStr []) a)
  | _ => Throw (js "TypeError: Cannot read properties of undefined (reading 'replace')")
  end.

Definition keepForms : list jsstring :=
  [js "8-K"; js "10-Q"; js "10-K"; js "6-K"; js "S-1"; js "S-3";
   js "SC 13D"; js "SC 13G"; js "DEF 14A"].

(** Membership of a value in the fixed set of forms ([keepForms.has] in one
    script, [Array.includes] on the same nine literals in the other). *)
Definition is_disclosure_form (v : value) : bool :=
  match v with
  | VStr s => existsb (str_eqb s) keepForms
  | _ => false
  end.

(** The comparator of both [mergeAndSort]s: [(a, b) => (a.date < b.date ? 1 : -1)]. *)
Definition by_date_desc {E : Engine} (a b : item) : Z :=
  if js_lt (date a) (date b) then 1 else -1.

Definition wrote_message (n : nat) (path : jsstring) : jsstring :=
  js "Wrote " ++ dec_of_Z (Z.of_nat n) ++ js " items to " ++ path.

(** The [.catch] at the end of both scripts. *)
Definition run_script (r : list event * completion unit) : list event :=
  match r with
  | (evs, Normal _) => evs
  | (evs, Throw m) => evs ++ [ConsoleError m; ProcessExit 1]
  end.

(** ** The ticker directories

    A field of a directory entry is a string, [null], absent, or a number. *)
Inductive scalar : Type :=
| SValue (v : value)
| SNumber (n : number).

(** [String(x)]. *)
Definition scalar_String {E : Engine} (x : scalar) : jsstring :=
  match x with
  | SValue v => ToString v
  | SNumber n => NumberToString n
  end.

(** Truthiness of a field: a number is falsy when it is NaN or zero. *)
Definition scalar_truthy (x : scalar) : bool :=
  match x with
  | SValue v => truthy v
  | SNumber (Finite q) => negb (Qeq_bool q 0)
  | SNumber NaN => false
  | SNumber _ => true
  end.

(** An entry of company_tickers.json. *)
Record ticker_row : Type := mkTickerRow {
  row_cik_str : scalar;
  row_ticker : scalar
}.

(** An entry of [data.companies]; [tickers] is an array or is not. *)
Record company : Type := mkCompany {
  company_cik_str : scalar;
  company_tickers : option (list scalar)
}.

Definition null_TypeError : jsstring :=
  js "TypeError: Cannot read properties of null".

(** [hit?.cik_str ? String(hit.cik_str).padStart(10, '0') : null], given
    [hit?.cik_str]. *)
Definition padded_cik {E : Engine} (cik_str : scalar) : value :=
  if scalar_truthy cik_str then VStr (padStart0 10 (scalar_String cik_str))
  else VNull.

(* ================================================================== *)
(** * The pipeline script with [toISO] and the guarded scrape *)
(* ================================================================== *)

Module Script.
Section WithEngine.
Context {E : Engine}.

Definition SEC_label : jsstring := js "SEC EDGAR filing".
Definition OTC_label : jsstring := js "OTC Disclosure & News Service".

Definition WRITE_PATH (w : world) : jsstring :=
  if truthy (env_WRITE_PATH w) then ToString (env_WRITE_PATH w)
  else js "disclosures.json".

Definition toISO (d : value) : completion value :=
  let dt := if truthy d then Some (Date_new d) else None in
  match dt with
  | Some tv =>
      if negb (Date_isNaN tv)
      then s <- toISOString tv ;; Normal (VStr (slice0 10 s))
      else Normal VNull
  | None => Normal VNull
  end.

Definition sec_link (cik10 : value) (acc primary : jsstring) : jsstring :=
  js "https://www.sec.gov/Archives/edgar/data/"
  ++ NumberToString (ToNumber cik10) ++ js "/" ++ acc ++ js "/" ++ primary.

(** The loop of [getSecRecentFilings] over the indices [idx]. *)
Fixpoint sec_loop (cik10 : value) (r : recent) (idx : list nat) (out : list item)
  : completion (list item) :=
  match idx with
  | [] => Normal out
  | i :: rest =>
      let f := index (form r) i in
      if negb (is_disclosure_form f) then sec_loop cik10 r rest out
      else
        let filed := index (filingDate r) i in
        let acc := index (accessionNumber r) i in
        let primary := index (primaryDocument r) i in
        a <- strip_dashes acc ;;
        sec_loop cik10 r rest
          (out ++ [ {| source := VStr (js "SEC");
                       title := VStr (ToString f ++ js " filed");
                       date := filed;
                       description := VStr SEC_label;
                       link := VStr (sec_link cik10 a (ToString primary)) |} ])
  end.

Definition getSecRecentFilings (w : world) (cik10 : value) : completion (list item) :=
  json <- fetch_json w (js "https://data.sec.gov/submissions/CIK" ++ ToString cik10 ++ js ".json") ;;
  match filings_recent json with
  | None => Normal []
  | Some r =>
      let n := Nat.min (List.length (form r)) 200 in
      sec_loop cik10 r (seq 0 n) []
  end.

(** [items.map(i => ({ ...i, date: toISO(i.date) }))]. *)
Fixpoint map_toISO (items : list item) : completion (list item) :=
  match items with
  | [] => Normal []
  | i :: rest =>
      d <- toISO (date i) ;;
      rest' <- map_toISO rest ;;
      Normal ({| source := source i; title := title i; date := d;
                 description := description i; link := link i |} :: rest')
  end.

Definition complete (i : item) : bool :=
  truthy (title i) && truthy (link i) && truthy (date i).

Definition scrapeOtcDisclosures (w : world) : completion (list item) :=
  items <- page_rows w ;;
  mapped <- map_toISO items ;;
  Normal (filter complete mapped).

Definition mergeAndSort (items : list item) : list item :=
  let map := fold_left (fun m i => map_set (key i) i m) items [] in
  array_sort by_date_desc (map_values map).

Definition main_body (w : world) : list event * completion unit :=
  match resolveCikFromTicker w with
  | Throw m => ([], Throw m)
  | Normal cik =>
      match (if truthy cik then getSecRecentFilings w cik else Normal []) with
      | Throw m => ([], Throw m)
      | Normal secItems =>
          let '(warned, otcItems) :=
            match scrapeOtcDisclosures w with
            | Normal l => ([], l)
            | Throw m =>
                ([ConsoleWarn [js "OTC scrape failed, continuing with SEC only:"; m]], [])
            end in
          let merged := mergeAndSort (secItems ++ otcItems) in
          match writeFile w (WRITE_PATH w) merged with
          | Throw m => (warned, Throw m)
          | Normal _ =>
              (warned ++ [FileWritten (WRITE_PATH w) merged;
                          ConsoleLog (wrote_message (List.length merged) (WRITE_PATH w))],
               Normal tt)
          end
      end
  end.

Definition main (w : world) : list event := run_script (main_body w).

End WithEngine.

Section Lookup.
Context {E : Engine} {L : Locale}.

(** [Object.values(map).find(v => String(v.ticker).toUpperCase() ===
    String(ticker).toUpperCase())]: the first entry that matches; reading
    the ticker of a [null] entry throws. *)
Fixpoint find_hit (rows : list (option ticker_row)) (ticker : value)
  : completion (option ticker_row) :=
  match rows with
  | [] => Normal None
  | None :: _ => Throw null_TypeError
  | Some v :: rest =>
      if str_eqb (toUpperCase (scalar_String (row_ticker v)))
                 (toUpperCase (ToString ticker))
      then Normal (Some v)
      else find_hit rest ticker
  end.

(** [resolveCikFromTicker(ticker)], given the outcome of the request for
    company_tickers.json as the list of the values of the object. *)
Definition resolveCikFromTicker (fetched : completion (list (option ticker_row)))
  (ticker : value) : completion value :=
  map <- fetched ;;
  hit <- find_hit map ticker ;;
  Normal (match hit with
          | Some v => padded_cik (row_cik_str v)
          | None => VNull
          end).

End Lookup.
End Script.

(* ================================================================== *)
(** * tools/scrape-otc-and-sec.js *)
(* ================================================================== *)

Module Tools.
Section WithEngine.
Context {E : Engine}.

(** The date step of [scrapeOtcDisclosures]:
    [let d = i.date ? new Date(i.date) : null; if (d && isNaN(d)) d = null;
     d ? d.toISOString().slice(0, 10) : null]. *)
Definition normalize_date (d0 : value) : completion value :=
  let d := if truthy d0 then Some (Date_new d0) else None in
  let d := match d with
           | Some tv => if Date_isNaN tv then None else Some tv
           | None => None
           end in
  match d with
  | Some tv => s <- toISOString tv ;; Normal (VStr (slice0 10 s))
  | None => Normal VNull
  end.

Fixpoint map_normalize (items : list item) : completion (list item) :=
  match items with
  | [] => Normal []
  | i :: rest =>
      d <- normalize_date (date i) ;;
      rest' <- map_normalize rest ;;
      Normal ({| source := source i; title := title i; date := d;
                 description := description i; link := link i |} :: rest')
  end.

Definition scrapeOtcDisclosures (w : world) : completion (list item) :=
  items <- page_rows w ;;
  parsed <- map_normalize items ;;
  Normal (filter (fun i => truthy (title i) && truthy (link i)) parsed).

Definition getSecCompanySubmissionsJson (w : world) (cik : value) : completion submissions :=
  fetch_json w (js "https://data.sec.gov/submissions/CIK"
                ++ padStart0 10 (ToString cik) ++ js ".json").

Definition sec_link (cik : jsstring) (acc primary : jsstring) : jsstring :=
  js "https://www.sec.gov/Archives/edgar/data/"
  ++ NumberToString (StringToNumber cik) ++ js "/" ++ acc ++ js "/" ++ primary.

(** The loop of [filterMapSecFilings] over the indices [idx]. *)
Fixpoint sec_loop (sub_cik : value) (r : recent) (idx : list nat) (out : list item)
  : completion (list item) :=
  match idx with
  | [] => Normal out
  | i :: rest =>
      let f := index (form r) i in
      if negb (is_disclosure_form f) then sec_loop sub_cik r rest out
      else
        let acc := index (accessionNumber r) i in
        let primaryDoc := index (primaryDocument r) i in
        let filed := index (filingDate r) i in
        let cik := padStart0 10 (ToString sub_cik) in
        a <- strip_dashes acc ;;
        sec_loop sub_cik r rest
          (out ++ [ {| source := VStr (js "SEC");
                       title := VStr (ToString f ++ js " filed");
                       date := filed;
                       description := VUndefined;
                       link := VStr (sec_link cik a (ToString primaryDoc)) |} ])
  end.

Definition filterMapSecFilings (subs : submissions) : completion (list item) :=
  match filings_recent subs with
  | None => Normal []
  | Some r =>
      let n := Nat.min (List.length (accessionNumber r)) 200 in
      sec_loop (cik subs) r (seq 0 n) []
  end.

Definition mergeAndSort (items : list item) : list item :=
  let map :=
    fold_left
      (fun m i =>
         if negb (truthy (title i)) || negb (truthy (link i)) || negb (truthy (date i))
         then m
         else map_set (key i) i m)
      items [] in
  array_sort by_date_desc (map_values map).

(** The projection of the merged records that is written out. *)
Definition describe (i : item) : item :=
  {| source := VUndefined;
     title := title i;
     date := date i;
     description :=
       VStr (if value_eqb (source i) (VStr (js "SEC"))
             then js "SEC EDGAR filing"
             else js "OTC Disclosure & News Service");
     link := link i |}.

Definition main_body (w : world) : list event * completion unit :=
  match scrapeOtcDisclosures w with
  | Throw m => ([], Throw m)
  | Normal otc =>
      match resolveCikFromTicker w with
      | Throw m => ([], Throw m)
      | Normal CIK =>
          match (if truthy CIK
                 then subs <- getSecCompanySubmissionsJson w CIK ;; filterMapSecFilings subs
                 else Normal []) with
          | Throw m => ([], Throw m)
          | Normal sec =>
              let merged := List.map describe (mergeAndSort (otc ++ sec)) in
              match writeFile w (js "disclosures.json") merged with
              | Throw m => ([], Throw m)
              | Normal _ =>
                  ([FileWritten (js "disclosures.json") merged;
                    ConsoleLog (wrote_message (List.length merged) (js "disclosures.json"))],
                   Normal tt)
              end
          end
      end
  end.

Definition main (w : world) : list event := run_script (main_body w).

End WithEngine.

Section Lookup.
Context {E : Engine} {L : Locale}.

(** [c.tickers.some(t => String(t).toUpperCase() === ticker.toUpperCase())]. *)
Definition some_ticker (tickers : list scalar) (ticker : jsstring) : bool :=
  existsb (fun t => str_eqb (toUpperCase (scalar_String t)) (toUpperCase ticker))
          tickers.

(** [data.companies?.find(c => Array.isArray(c.tickers) && ...)]; reading
    the tickers of a [null] entry throws. *)
Fixpoint find_hit (companies : list (option company)) (ticker : jsstring)
  : completion (option company) :=
  match companies with
  | [] => Normal None
  | None :: _ => Throw null_TypeError
  | Some c :: rest =>
      if match company_tickers c with
         | Some tickers => some_ticker tickers ticker
         | None => false
         end
      then Normal (Some c)
      else find_hit rest ticker
  end.

(** [resolveCikFromTicker(ticker)], given the outcome of the request for the
    company list as [data.companies] ([None] when the response has none). *)
Definition resolveCikFromTicker
  (fetched : completion (option (list (option company)))) (ticker : jsstring)
  : completion value :=
  data_companies <- fetched ;;
  match data_companies with
  | None => Normal VNull
  | Some companies =>
      hit <- find_hit companies ticker ;;
      Normal (match hit with
              | Some c => padded_cik (company_cik_str c)
              | None => VNull
              end)
  end.

End Lookup.
End Tools.

(* ================================================================== *)
(** * Reference definitions the properties are stated with *)
(* ================================================================== *)

(** The entity that stands for a character, or the character itself. *)
Definition entity_of (c : N) : jsstring :=
  if N.eqb c c_amp then js "&amp;"
  else if N.eqb c c_lt then js "&lt;"
  else if N.eqb c c_gt then js "&gt;"
  else if N.eqb c c_quot then js "&quot;"
  else if N.eqb c c_apos then js "&#039;"
  else [c].

Definition five_entities : list jsstring :=
  [js "&amp;"; js "&lt;"; js "&gt;"; js "&quot;"; js "&#039;"].

(** No raw less-than, greater-than, double quote or apostrophe. *)
Definition markup_free (s : jsstring) : Prop :=
  forall c, In c s -> c <> c_lt /\ c <> c_gt /\ c <> c_quot /\ c <> c_apos.

(** Every ampersand of [s] begins one of the five entities. *)
Definition ampersands_escaped (s : jsstring) : Prop :=
  forall i, nth_error s i = Some c_amp ->
    exists e, In e five_entities /\ starts_with e (skipn i s) = true.

(** An engine that gives no meaning to what the model leaves open: used to
    evaluate the definitions on concrete inputs. *)
Definition strict_engine : Engine :=
  {| StringToNumber_other := fun _ => NaN;
     NumberToString_other := fun _ => [];
     Date_parse_other := fun _ => None |}.

(** A record lacks a field when the field is empty, [null] or absent. *)
Definition missing (v : value) : bool := negb (truthy v).

Definition incomplete (r : item) : bool :=
  missing (title r) || missing (link r) || missing (date r).

(** The single pass of both [mergeAndSort]s over the input: the records that
    pass [keep] are set in the map under their key. *)
Definition insert_all (keep : item -> bool) (items : list item) (m : jsmap item)
  : jsmap item :=
  fold_left (fun m i => if keep i then map_set (key i) i m else m) items m.

(** The last record of [items] that passes [keep] and has key [k], or [acc]
    when there is none. *)
Definition last_kept (keep : item -> bool) (k : jsstring) (items : list item)
  (acc : option item) : option item :=
  fold_left (fun acc i => if keep i && str_eqb (key i) k then Some i else acc)
            items acc.

(** A map from keys to records is well keyed when no key occurs twice and
    every record sits under its own key. *)
Definition well_keyed (m : jsmap item) : Prop :=
  NoDup (List.map fst m) /\ Forall (fun p => fst p = key (snd p)) m.

(** The records of a sequence that carry a given key. *)
Definition with_key (k : jsstring) (l : list item) : list item :=
  filter (fun r => str_eqb (key r) k) l.


(** A complete record: title, link and date are non-empty strings. *)
Definition complete_record (r : item) : Prop :=
  exists t l d,
    title r = VStr t /\ t <> [] /\ link r = VStr l /\ l <> []
    /\ date r = VStr d /\ d <> [].

(** ** Sample records *)

Definition sample (src ttl dt descr lnk : string) : item :=
  {| source := VStr (js src); title := VStr (js ttl); date := VStr (js dt);
     description := VStr (js descr); link := VStr (js lnk) |}.

(** Two records whose titles and links differ and whose keys coincide. *)
Definition bar_in_title : item :=
  sample "OTC" "a|b" "2024-01-01" "first" "c".
Definition bar_in_link : item :=
  sample "OTC" "a" "2024-01-01" "second" "b|c".

(** The same disclosure reported twice, with different descriptions. *)
Definition twice_first : item :=
  sample "SEC" "a|b" "2024-01-01" "SEC EDGAR filing" "c".
Definition twice_second : item :=
  sample "OTC" "a|b" "2024-01-01" "OTC Disclosure & News Service" "c".

(** The same link found twice on the page with no date beside it. *)
Definition undated_first : item :=
  {| source := VStr (js "OTC"); title := VStr (js "Annual Report");
     date := VNull; description := VStr (js "first");
     link := VStr (js "https://www.otcmarkets.com/file/1") |}.
Definition undated_second : item :=
  {| source := VStr (js "OTC"); title := VStr (js "Annual Report");
     date := VNull; description := VStr (js "second");
     link := VStr (js "https://www.otcmarkets.com/file/1") |}.

Definition quarterly : item :=
  sample "SEC" "10-Q filed" "2024-02-10" "SEC EDGAR filing" "https://www.sec.gov/q".
Definition press_release : item :=
  sample "OTC" "Press release" "2024-03-01" "OTC Disclosure & News Service"
         "https://www.otcmarkets.com/news/1".
Definition current_report : item :=
  sample "SEC" "8-K filed" "2023-12-31" "SEC EDGAR filing" "https://www.sec.gov/k".

Definition three_dated : list item := [quarterly; press_release; current_report].

(** ** The filing of the scenario *)

Definition one_filing : recent :=
  {| form := [VStr (js "8-K")];
     filingDate := [VStr (js "2024-03-01")];
     accessionNumber := [VStr (js "0001234567-24-000012")];
     primaryDocument := [VStr (js "ex1.htm")] |}.

Definition issuer_id : value := VStr (js "0000123456").

Definition filing_link : jsstring :=
  js "https://www.sec.gov/Archives/edgar/data/123456/000123456724000012/ex1.htm".

(** A world whose submissions endpoint answers with the one filing, whose
    page evaluation fails, and whose file system accepts every write. *)
Definition scrape_fails : world :=
  {| env_WRITE_PATH := VUndefined;
     resolveCikFromTicker := Normal issuer_id;
     fetch_json := fun _ => Normal {| cik := issuer_id; filings_recent := Some one_filing |};
     page_rows := Throw (js "page.goto: Timeout 60000ms exceeded.");
     writeFile := fun _ _ => Normal tt |}.

(** The record the scenario expects, up to its description. *)
Definition filing_record (descr : value) : item :=
  {| source := VStr (js "SEC");
     title := VStr (js "8-K filed");
     date := VStr (js "2024-03-01");
     description := descr;
     link := VStr filing_link |}.

(** The state of the widget with nothing to show. *)
Definition empty_feed : Widget.state :=
  {| Widget.raw := []; Widget.filtered := []; Widget.page := 1 |}.

(** ** The regulatory extractor as a filter and a map *)

Definition is_string (v : value) : bool :=
  match v with
  | VStr _ => true
  | _ => false
  end.

Definition without_dashes (a : jsstring) : jsstring :=
  filter (fun c => negb (N.eqb c c_dash)) a.

(** The indices below [n] whose form is one of the forms kept. *)
Definition kept_indices (r : recent) (n : nat) : list nat :=
  filter (fun i => is_disclosure_form (index (form r) i)) (seq 0 n).

(** The record either script builds from entry [i], given the link. *)
Definition filing_at (r : recent) (i : nat) (descr : value) (lnk : jsstring) : item :=
  {| source := VStr (js "SEC");
     title := VStr (ToString (index (form r) i) ++ js " filed");
     date := index (filingDate r) i;
     description := descr;
     link := VStr lnk |}.

Definition Script_filing {E : Engine} (cik10 : value) (r : recent) (i : nat) : item :=
  filing_at r i (VStr (js "SEC EDGAR filing"))
    (Script.sec_link cik10
       (without_dashes (ToString (index (accessionNumber r) i)))
       (ToString (index (primaryDocument r) i))).

Definition Tools_filing {E : Engine} (sub_cik : value) (r : recent) (i : nat) : item :=
  filing_at r i VUndefined
    (Tools.sec_link (padStart0 10 (ToString sub_cik))
       (without_dashes (ToString (index (accessionNumber r) i)))
       (ToString (index (primaryDocument r) i))).

Definition replace_TypeError : jsstring :=
  js "TypeError: Cannot read properties of undefined (reading 'replace')".

Definition archive_prefix : jsstring :=
  js "https://www.sec.gov/Archives/edgar/data/".

(** What every record of the regulatory extractors looks like. *)
Definition sec_shaped (x : item) : Prop :=
  source x = VStr (js "SEC")
  /\ (exists f, In f keepForms /\ title x = VStr (f ++ js " filed"))
  /\ (exists rest, link x = VStr (archive_prefix ++ rest)).

(** A response whose arrays are of unequal length. *)
Definition ragged_filing : recent :=
  {| form := [VStr (js "8-K"); VStr (js "4"); VStr (js "10-K")];
     filingDate := [VStr (js "2024-03-01")];
     accessionNumber := [VStr (js "0001234567-24-000012"); VStr (js "0001234567-24-000013")];
     primaryDocument := [VStr (js "ex1.htm")] |}.

(** ** The webpage extractor after the page evaluation *)

(** The rows behind a record that the webpage extractor returns. *)
Definition from_row {E : Engine} (rows : list item) (x : item) : Prop :=
  exists row,
    In row rows
    /\ source x = source row /\ title x = title row
    /\ description x = description row /\ link x = link row
    /\ Script.toISO (date row) = Normal (date x).

(** An engine that reads every string that is not a canonical date as the
    last millisecond of 29 February 2024. *)
Definition leap_evening_engine : Engine :=
  {| StringToNumber_other := fun _ => NaN;
     NumberToString_other := fun _ => [];
     Date_parse_other := fun _ => Some 1709251199999 |}.

(** ** Ways a run ends *)

(** The run wrote the file once and reported the count, after the events
    [before]. *)
Definition ends_written (before evs : list event) : Prop :=
  exists path items,
    evs = before ++ [FileWritten path items;
                     ConsoleLog (wrote_message (List.length items) path)].

(** The run reported an error and exited with code 1, after the events
    [before]. *)
Definition ends_failed (before evs : list event) : Prop :=
  exists m, evs = before ++ [ConsoleError m; ProcessExit 1].

(** At most the one warning of the guarded scrape. *)
Definition at_most_the_warning (before : list event) : Prop :=
  before = []
  \/ exists m, before = [ConsoleWarn [js "OTC scrape failed, continuing with SEC only:"; m]].



(** A world in which the ticker lookup fails. *)
Definition lookup_fails : world :=
  {| env_WRITE_PATH := VUndefined;
     resolveCikFromTicker := Throw (js "HTTP 403 for https://www.sec.gov/files/company_tickers.json");
     fetch_json := fun _ => Normal {| cik := issuer_id; filings_recent := Some one_filing |};
     page_rows := Normal [];
     writeFile := fun _ _ => Normal tt |}.


(** A record of the feed of the other script: a regulatory record, or a
    complete record made from a row of the page. *)
Definition from_either_source {E : Engine} (w : world) (x : item) : Prop :=
  sec_shaped x
  \/ (complete_record x
      /\ exists rows, page_rows w = Normal rows /\ from_row rows x).

(** ** The widget at a given page *)


(** The number of pages [renderPage] computes. *)
Definition page_count (st : Widget.state) : Z :=
  Z.max 1 (Widget.ceil_div (Z.of_nat (List.length (Widget.filtered st)))
                           Widget.PAGE_SIZE).

(** ** The widget after loading *)



(** A locale that leaves strings outside ASCII as they are and compares by
    code units. *)
Definition plain_locale : Locale :=
  {| toLowerCase_other := fun s => s;
     toUpperCase_other := fun s => s;
     localeCompare := fun a b => if str_ltb a b then -1 else if str_ltb b a then 1 else 0 |}.

(** [later] is not dated after [earlier]. *)
Definition not_dated_after (earlier later : Widget.entry) : Prop :=
  exists p q, Widget.e_date earlier = Some p /\ Widget.e_date later = Some q /\ q <= p.

Definition dated (ttl : string) (t : Z) : Widget.entry :=
  {| Widget.e_title := js ttl; Widget.e_description := []; Widget.e_link := [];
     Widget.e_date := Some t |}.

(** Three entries loaded out of order. *)
Definition three_loaded : Widget.state :=
  {| Widget.raw := [dated "Quarterly report" 1707523200000;
                    dated "Press release" 1709251200000;
                    dated "Annual REPORT" 1703980800000];
     Widget.filtered := []; Widget.page := 3 |}.

(** The array [init] reads from a parsed response, when reading it does not
    throw. *)
Definition elements_of (data : Widget.json_data) : option (list (option Widget.feed_item)) :=
  match data with
  | Widget.DArray elements => Some elements
  | Widget.DObject (Some elements) => Some elements
  | Widget.DObject None => Some []
  | Widget.DOther => Some []
  | Widget.DNull => None
  end.




(** The sort modes the comparator knows. *)
Definition known_modes : list jsstring :=
  [js "date_desc"; js "date_asc"; js "title_asc"; js "title_desc"].

(** ** Ticker directories for the lookups *)


(** The identifier as a number of the directory. *)
Definition cik_number (c : Z) : scalar := SNumber (Finite (inject_Z c)).

(** ** Proof steps for the month tables *)

(** Case split on a month between 1 and 12. *)
Ltac each_month m :=
  let Hc := fresh "Hcases" in
  assert (m = 1 \/ m = 2 \/ m = 3 \/ m = 4 \/ m = 5 \/ m = 6 \/ m = 7 \/ m = 8
          \/ m = 9 \/ m = 10 \/ m = 11 \/ m = 12) as Hc by lia;
  destruct Hc as [-> | [-> | [-> | [-> | [-> | [-> | [-> | [-> | [-> | [-> | [-> | ->]]]]]]]]]]].

(** Once the month is a numeral, so are the month before it and the rows of
    the two month tables. *)
Ltac month_rows :=
  repeat match goal with
         | |- context [Z.pos ?p - 1] =>
             let v := eval compute in (Z.pos p - 1) in change (Z.pos p - 1) with v
         | H : context [Z.pos ?p - 1] |- _ =>
             let v := eval compute in (Z.pos p - 1) in change (Z.pos p - 1) with v in H
         end;
  unfold month_start, DaysInMonth in *.

Ltac split_ltb :=
  repeat match goal with
         | |- context [?a <? ?b] => destruct (Z.ltb_spec a b); try lia
         end.

(** A leaf of the month tables: the month is a numeral there. *)
Ltac month_leaf :=
  cbv beta iota;
  repeat match goal with
         | |- context [DaysInMonth ?y (?n + 1)] =>
             let v := eval compute in (n + 1) in change (n + 1) with v
         end;
  unfold DaysInMonth, month_start; cbv beta iota; lia.

(* ================================================================== *)
(** * escapeHtml *)
(* ================================================================== *)

Section EscapeHtml.
Import Widget.

Lemma escapeHtml_cons (c : N) (s : jsstring) :
  escapeHtml (c :: s) = entity_of c ++ escapeHtml s.
Proof.
  unfold escapeHtml, entity_of. cbn [replace_class]. f_equal.
  unfold in_class. cbn [existsb lookup entities].
  destruct (N.eqb c c_amp); [reflexivity|].
  destruct (N.eqb c c_lt); [reflexivity|].
  destruct (N.eqb c c_gt); [reflexivity|].
  destruct (N.eqb c c_quot); [reflexivity|].
  destruct (N.eqb c c_apos); reflexivity.
Qed.

Lemma escapeHtml_flat_map (s : jsstring) :
  escapeHtml s = flat_map entity_of s.
Proof.
  induction s as [|c s IH]; [reflexivity|].
  rewrite escapeHtml_cons, IH. reflexivity.
Qed.

(** The five cases of [entity_of], as a case split on the character. *)
Lemma entity_of_cases (c : N) :
  (In (entity_of c) five_entities)
  \/ (entity_of c = [c] /\ c <> c_amp /\ c <> c_lt /\ c <> c_gt
      /\ c <> c_quot /\ c <> c_apos).
Proof.
  unfold entity_of, five_entities.
  destruct (N.eqb_spec c c_amp); [left; simpl; tauto|].
  destruct (N.eqb_spec c c_lt); [left; simpl; tauto|].
  destruct (N.eqb_spec c c_gt); [left; simpl; tauto|].
  destruct (N.eqb_spec c c_quot); [left; simpl; tauto|].
  destruct (N.eqb_spec c c_apos); [left; simpl; tauto|].
  right. tauto.
Qed.

Lemma entity_markup_free (e : jsstring) :
  In e five_entities -> markup_free e.
Proof.
  intros He c Hc. unfold five_entities in He. simpl in He.
  repeat (destruct He as [<- | He];
          [ vm_compute in Hc;
            repeat (destruct Hc as [<- | Hc]; [vm_compute; repeat split; discriminate|]);
            contradiction | ]).
  contradiction.
Qed.

Lemma escapeHtml_markup_free (s : jsstring) : markup_free (escapeHtml s).
Proof.
  induction s as [|c s IH]; intros x Hx.
  - contradiction.
  - rewrite escapeHtml_cons in Hx. apply in_app_or in Hx.
    destruct Hx as [Hx | Hx]; [|exact (IH x Hx)].
    destruct (entity_of_cases c) as [He | (Heq & Ha & Hl & Hg & Hq & Hp)].
    + exact (entity_markup_free _ He x Hx).
    + rewrite Heq in Hx. destruct Hx as [<- | []]. tauto.
Qed.

(** Inside an entity an ampersand occurs at its first position only, and
    the entity is then a prefix of what follows. *)
Lemma entity_ampersand (e rest : jsstring) (i : nat) :
  In e five_entities ->
  (i < List.length e)%nat ->
  nth_error (e ++ rest) i = Some c_amp ->
  starts_with e (skipn i (e ++ rest)) = true.
Proof.
  intros He Hi Hn. unfold five_entities in He. simpl in He.
  repeat (destruct He as [<- | He];
          [ cbn in Hi;
            do 7 (destruct i as [|i];
                  [ first [ lia | reflexivity | vm_compute in Hn; discriminate Hn ] | ]);
            lia | ]).
  contradiction.
Qed.

Lemma escapeHtml_ampersands (s : jsstring) : ampersands_escaped (escapeHtml s).
Proof.
  induction s as [|c s IH]; intros i Hi.
  - destruct i; discriminate Hi.
  - rewrite escapeHtml_cons in Hi |- *.
    destruct (Nat.ltb_spec i (List.length (entity_of c))) as [Hlt | Hge].
    + destruct (entity_of_cases c) as [He | (Heq & Ha & _)].
      * exists (entity_of c). split; [exact He|].
        apply entity_ampersand; assumption.
      * rewrite Heq in Hlt, Hi. simpl in Hlt.
        assert (i = 0%nat) as -> by lia. simpl in Hi. congruence.
    + rewrite nth_error_app2 in Hi by exact Hge.
      destruct (IH _ Hi) as (e & He & Hpre).
      exists e. split; [exact He|].
      rewrite skipn_app.
      rewrite (skipn_all2 (entity_of c)) by exact Hge. exact Hpre.
Qed.

End EscapeHtml.

(** C10. For every string, [escapeHtml] returns the string with each
    ampersand, less-than, greater-than, double quote and apostrophe replaced
    by its entity; the result has no raw less-than, greater-than, double
    quote or apostrophe, every ampersand in it begins one of the five
    entities, and so the heading and paragraph of every card that
    [renderPage] builds are free of markup characters. *)
Theorem escapeHtml_replaces_and_neutralises :
  forall s : jsstring,
    Widget.escapeHtml s = flat_map entity_of s
    /\ markup_free (Widget.escapeHtml s)
    /\ ampersands_escaped (Widget.escapeHtml s)
    /\ (forall st card,
          In card (Widget.cards (snd (Widget.renderPage st))) ->
          markup_free (fst card) /\ ampersands_escaped (fst card)
          /\ markup_free (snd card) /\ ampersands_escaped (snd card)).
Proof.
  intro s. split; [apply escapeHtml_flat_map|].
  split; [apply escapeHtml_markup_free|].
  split; [apply escapeHtml_ampersands|].
  intros st card Hc. cbn in Hc.
  apply in_map_iff in Hc. destruct Hc as (it & <- & _).
  unfold Widget.card_of. cbn [fst snd].
  split; [apply escapeHtml_markup_free|].
  split; [apply escapeHtml_ampersands|].
  split; [apply escapeHtml_markup_free | apply escapeHtml_ampersands].
Qed.

(* ================================================================== *)
(** * Strings, maps and sorting *)
(* ================================================================== *)

Lemma str_eqb_eq (s t : jsstring) : str_eqb s t = true <-> s = t.
Proof.
  revert t. induction s as [|a s IH]; intros [|b t]; simpl; split; intro H;
    try reflexivity; try discriminate.
  - apply andb_true_iff in H. destruct H as [Hab Hst].
    apply N.eqb_eq in Hab. apply IH in Hst. congruence.
  - injection H as -> ->. rewrite N.eqb_refl. simpl. apply IH. reflexivity.
Qed.

Lemma str_eqb_refl (s : jsstring) : str_eqb s s = true.
Proof. apply str_eqb_eq. reflexivity. Qed.

Lemma str_eqb_neq (s t : jsstring) : str_eqb s t = false <-> s <> t.
Proof.
  split.
  - intros H Heq. apply str_eqb_eq in Heq. congruence.
  - intro H. destruct (str_eqb s t) eqn:Hst; [|reflexivity].
    apply str_eqb_eq in Hst. contradiction.
Qed.

Lemma str_eqb_sym (s t : jsstring) : str_eqb s t = str_eqb t s.
Proof.
  destruct (str_eqb t s) eqn:H.
  - apply str_eqb_eq in H. subst. apply str_eqb_refl.
  - apply str_eqb_neq in H. apply str_eqb_neq. congruence.
Qed.

Lemma str_ltb_irrefl (s : jsstring) : str_ltb s s = false.
Proof.
  induction s as [|a s IH]; simpl; [reflexivity|].
  rewrite N.ltb_irrefl, N.eqb_refl. exact IH.
Qed.


Lemma str_ltb_trans (s t u : jsstring) :
  str_ltb s t = true -> str_ltb t u = true -> str_ltb s u = true.
Proof.
  revert t u. induction s as [|a s IH]; intros [|b t] [|c u]; simpl;
    try congruence.
  destruct (N.ltb_spec a b) as [Hab | Hab].
  - intros _. destruct (N.ltb_spec b c) as [Hbc | Hbc].
    + intros _. destruct (N.ltb_spec a c); [reflexivity|lia].
    + destruct (N.eqb_spec b c) as [-> | Hne]; [|discriminate].
      intros _. destruct (N.ltb_spec a c); [reflexivity|lia].
  - destruct (N.eqb_spec a b) as [-> | Hne]; [|discriminate].
    intros Hst. destruct (N.ltb_spec b c) as [Hbc | Hbc]; [reflexivity|].
    destruct (N.eqb_spec b c) as [-> | Hne]; [|discriminate].
    apply IH. exact Hst.
Qed.

Lemma str_ltb_total (s t : jsstring) :
  str_ltb s t = false -> str_ltb t s = false -> s = t.
Proof.
  revert t. induction s as [|a s IH]; intros [|b t]; simpl; try congruence.
  destruct (N.ltb_spec a b) as [Hab | Hab]; [discriminate|].
  destruct (N.eqb_spec a b) as [-> | Hne].
  - rewrite N.ltb_irrefl, N.eqb_refl. intros H1 H2. f_equal. apply IH; assumption.
  - intros _. destruct (N.ltb_spec b a); [discriminate|]. lia.
Qed.

Section MapFacts.
Context {V : Type}.

Lemma map_get_set_same (k : jsstring) (v : V) (m : jsmap V) :
  map_get k (map_set k v m) = Some v.
Proof.
  induction m as [|[k' v'] m IH]; simpl.
  - rewrite str_eqb_refl. reflexivity.
  - destruct (str_eqb k k') eqn:H; simpl; rewrite H; [reflexivity|exact IH].
Qed.

Lemma map_get_set_other (k k' : jsstring) (v : V) (m : jsmap V) :
  k' <> k -> map_get k' (map_set k v m) = map_get k' m.
Proof.
  intro Hne. induction m as [|[k0 v0] m IH]; simpl.
  - apply str_eqb_neq in Hne. rewrite Hne. reflexivity.
  - destruct (str_eqb k k0) eqn:H; simpl.
    + apply str_eqb_eq in H. subst k0.
      apply str_eqb_neq in Hne. rewrite Hne. reflexivity.
    + rewrite IH. reflexivity.
Qed.

Lemma map_set_keys (k : jsstring) (v : V) (m : jsmap V) :
  List.map fst (map_set k v m)
  = if existsb (str_eqb k) (List.map fst m) then List.map fst m
    else List.map fst m ++ [k].
Proof.
  induction m as [|[k' v'] m IH]; simpl; [reflexivity|].
  destruct (str_eqb k k') eqn:H; simpl; [reflexivity|].
  rewrite IH. destruct (existsb (str_eqb k) (List.map fst m)); reflexivity.
Qed.

Lemma map_set_values (k : jsstring) (v x : V) (m : jsmap V) :
  In x (map_values (map_set k v m)) -> x = v \/ In x (map_values m).
Proof.
  unfold map_values. induction m as [|[k' v'] m IH]; simpl.
  - intros [H | []]. left. congruence.
  - destruct (str_eqb k k'); simpl.
    + intros [H | H]; [left; congruence | right; right; exact H].
    + intros [H | H]; [right; left; exact H|].
      destruct (IH H) as [H' | H']; [left; exact H' | right; right; exact H'].
Qed.

Lemma map_set_entries (k : jsstring) (v : V) (p : jsstring * V) (m : jsmap V) :
  In p (map_set k v m) -> (fst p = k /\ snd p = v) \/ In p m.
Proof.
  induction m as [|[k' v'] m IH]; simpl.
  - intros [<- | []]. left. split; reflexivity.
  - destruct (str_eqb k k') eqn:Hk; simpl.
    + apply str_eqb_eq in Hk. subst k'.
      intros [<- | H]; [left; split; reflexivity | right; right; exact H].
    + intros [H | H]; [right; left; exact H|].
      destruct (IH H) as [H' | H']; [left; exact H' | right; right; exact H'].
Qed.

Lemma map_set_NoDup (k : jsstring) (v : V) (m : jsmap V) :
  NoDup (List.map fst m) -> NoDup (List.map fst (map_set k v m)).
Proof.
  intro Hnd. rewrite map_set_keys.
  destruct (existsb (str_eqb k) (List.map fst m)) eqn:Hex; [exact Hnd|].
  apply NoDup_app; [exact Hnd | constructor; [intros []|constructor] |].
  intros x Hx [Heq | []]. subst x.
  assert (existsb (str_eqb k) (List.map fst m) = true) as Hc.
  { apply existsb_exists. exists k. split; [exact Hx | apply str_eqb_refl]. }
  congruence.
Qed.

Lemma map_get_absent (k : jsstring) (m : jsmap V) :
  ~ In k (List.map fst m) -> map_get k m = None.
Proof.
  induction m as [|[k' v'] m IH]; simpl; [reflexivity|].
  intro H. destruct (str_eqb k k') eqn:Hk.
  - apply str_eqb_eq in Hk. subst. exfalso. apply H. left. reflexivity.
  - apply IH. intro Hin. apply H. right. exact Hin.
Qed.

End MapFacts.

Section SortFacts.
Context {A : Type} (cmp : A -> A -> Z).

Lemma sort_insert_perm (x : A) (l : list A) :
  Permutation (sort_insert cmp x l) (x :: l).
Proof.
  induction l as [|y l IH]; simpl; [apply Permutation_refl|].
  destruct (cmp y x >? 0); [apply Permutation_refl|].
  eapply Permutation_trans; [apply perm_skip; exact IH | apply perm_swap].
Qed.

Lemma array_sort_perm (l : list A) : Permutation (array_sort cmp l) l.
Proof.
  unfold array_sort.
  assert (forall acc, Permutation (fold_left (fun acc x => sort_insert cmp x acc) l acc)
                                  (acc ++ l)) as H.
  { induction l as [|x l IH]; intro acc; simpl.
    - rewrite app_nil_r. apply Permutation_refl.
    - eapply Permutation_trans; [apply IH|].
      eapply Permutation_trans;
        [apply Permutation_app_tail; apply sort_insert_perm|].
      simpl. apply Permutation_middle. }
  exact (H []).
Qed.

(** [keeps a b]: the comparator does not ask for [a] to come after [b]. *)
Let keeps (a b : A) : Prop := (cmp a b >? 0) = false.

Hypothesis cmp_asym : forall a b, (cmp a b >? 0) = true -> (cmp b a >? 0) = false.

Lemma sort_insert_sorted (x : A) (l : list A) :
  Sorted keeps l -> Sorted keeps (sort_insert cmp x l).
Proof.
  induction l as [|y l IH]; simpl; intro Hs.
  - repeat constructor.
  - destruct (cmp y x >? 0) eqn:Hyx.
    + constructor; [exact Hs|]. constructor. apply cmp_asym. exact Hyx.
    + inversion Hs as [|? ? Hs' Hhd]; subst.
      constructor; [apply IH; exact Hs'|].
      destruct l as [|z l]; simpl.
      * constructor. exact Hyx.
      * destruct (cmp z x >? 0); constructor; [exact Hyx|].
        inversion Hhd; subst. assumption.
Qed.

Lemma array_sort_sorted (l : list A) : Sorted keeps (array_sort cmp l).
Proof.
  unfold array_sort.
  assert (forall acc, Sorted keeps acc ->
            Sorted keeps (fold_left (fun acc x => sort_insert cmp x acc) l acc)) as H.
  { induction l as [|x l IH]; intros acc Hacc; simpl; [exact Hacc|].
    apply IH. apply sort_insert_sorted. exact Hacc. }
  apply H. constructor.
Qed.

End SortFacts.

(* ================================================================== *)
(** * The reconciler: one pass into the map, then the sort *)
(* ================================================================== *)

Section InsertAll.
Variable keep : item -> bool.

Lemma insert_all_app (l1 l2 : list item) (m : jsmap item) :
  insert_all keep (l1 ++ l2) m = insert_all keep l2 (insert_all keep l1 m).
Proof. unfold insert_all. apply fold_left_app. Qed.

Lemma insert_all_well_keyed (items : list item) (m : jsmap item) :
  well_keyed m -> well_keyed (insert_all keep items m).
Proof.
  revert m. induction items as [|i items IH]; intros m Hm; [exact Hm|].
  simpl. apply IH. destruct (keep i); [|exact Hm].
  destruct Hm as [Hnd Hk]. split.
  - apply map_set_NoDup. exact Hnd.
  - apply Forall_forall. intros p Hp.
    destruct (map_set_entries _ _ _ _ Hp) as [[Hf Hs] | Hin].
    + rewrite Hf, Hs. reflexivity.
    + rewrite Forall_forall in Hk. apply Hk. exact Hin.
Qed.

Lemma insert_all_values (items : list item) (m : jsmap item) (x : item) :
  In x (map_values (insert_all keep items m)) ->
  In x (map_values m) \/ (In x items /\ keep x = true).
Proof.
  revert m. induction items as [|i items IH]; intros m Hx; [left; exact Hx|].
  simpl in Hx. apply IH in Hx. destruct Hx as [Hx | [Hx Hk]].
  - destruct (keep i) eqn:Hi; [|left; exact Hx].
    apply map_set_values in Hx. destruct Hx as [-> | Hx].
    + right. split; [left; reflexivity | exact Hi].
    + left. exact Hx.
  - right. split; [right; exact Hx | exact Hk].
Qed.

Lemma insert_all_get (k : jsstring) (items : list item) (m : jsmap item) :
  map_get k (insert_all keep items m) = last_kept keep k items (map_get k m).
Proof.
  revert m. induction items as [|i items IH]; intro m; [reflexivity|].
  simpl. rewrite IH. f_equal.
  destruct (keep i); simpl; [|reflexivity].
  destruct (str_eqb (key i) k) eqn:Hk.
  - apply str_eqb_eq in Hk. subst k. apply map_get_set_same.
  - apply str_eqb_neq in Hk. apply map_get_set_other. congruence.
Qed.

Lemma last_kept_none_after (k : jsstring) (l : list item) (acc : option item) :
  Forall (fun r => keep r && str_eqb (key r) k = false) l ->
  last_kept keep k l acc = acc.
Proof.
  revert acc. induction l as [|r l IH]; intros acc Hl; [reflexivity|].
  inversion Hl as [|? ? Hr Hl']; subst. simpl. rewrite Hr. apply IH. exact Hl'.
Qed.

End InsertAll.

Lemma well_keyed_with_key (k : jsstring) (m : jsmap item) :
  well_keyed m ->
  with_key k (map_values m)
  = match map_get k m with Some v => [v] | None => [] end.
Proof.
  unfold with_key, map_values. induction m as [|[k' v'] m IH]; intros [Hnd Hk];
    [reflexivity|].
  simpl in *. inversion Hnd as [|? ? Hnotin Hnd']; subst.
  inversion Hk as [|? ? Hhd Hk']; subst. simpl in Hhd. subst k'.
  rewrite (str_eqb_sym k (key v')).
  destruct (str_eqb (key v') k) eqn:He.
  - apply str_eqb_eq in He. subst k.
    rewrite (IH (conj Hnd' Hk')).
    rewrite (map_get_absent _ _ Hnotin). reflexivity.
  - apply IH. split; assumption.
Qed.

Lemma with_key_perm (k : jsstring) (l l' : list item) :
  Permutation l l' -> Permutation (with_key k l) (with_key k l').
Proof.
  unfold with_key. induction 1; simpl.
  - constructor.
  - destruct (str_eqb (key x) k); [apply perm_skip|]; assumption.
  - destruct (str_eqb (key x) k), (str_eqb (key y) k);
      try apply Permutation_refl. apply perm_swap.
  - eapply Permutation_trans; eassumption.
Qed.

Section Reconciler.
Context {E : Engine}.

Lemma Script_mergeAndSort_eq (items : list item) :
  Script.mergeAndSort items
  = array_sort by_date_desc (map_values (insert_all (fun _ => true) items [])).
Proof. reflexivity. Qed.

Lemma Tools_mergeAndSort_eq (items : list item) :
  Tools.mergeAndSort items
  = array_sort by_date_desc
      (map_values (insert_all (fun i => negb (incomplete i)) items [])).
Proof.
  unfold Tools.mergeAndSort, insert_all. do 2 f_equal.
  assert (forall m, fold_left
     (fun m i =>
        if negb (truthy (title i)) || negb (truthy (link i)) || negb (truthy (date i))
        then m else map_set (key i) i m) items m
     = fold_left (fun m i => if negb (incomplete i) then map_set (key i) i m else m)
                 items m) as H.
  { induction items as [|i items IH]; intro m; [reflexivity|].
    simpl. rewrite IH. f_equal. unfold incomplete, missing.
    destruct (negb (truthy (title i)) || negb (truthy (link i))
              || negb (truthy (date i))); reflexivity. }
  apply H.
Qed.

Lemma well_keyed_nil : well_keyed [].
Proof. split; constructor. Qed.

(** Whatever passes [keep] last under a key is the one record of the output
    with that key. *)
Lemma sorted_map_with_key (keep : item -> bool) (items : list item) (k : jsstring) :
  Permutation
    (with_key k (array_sort by_date_desc (map_values (insert_all keep items []))))
    (match last_kept keep k items None with Some v => [v] | None => [] end).
Proof.
  eapply Permutation_trans; [apply with_key_perm; apply array_sort_perm|].
  rewrite well_keyed_with_key
    by (apply insert_all_well_keyed; apply well_keyed_nil).
  rewrite insert_all_get. simpl. apply Permutation_refl.
Qed.

Lemma sorted_map_members (keep : item -> bool) (items : list item) (x : item) :
  In x (array_sort by_date_desc (map_values (insert_all keep items []))) ->
  In x items /\ keep x = true.
Proof.
  intro Hx.
  apply (Permutation_in _ (array_sort_perm by_date_desc _)) in Hx.
  apply insert_all_values in Hx. destruct Hx as [[] | Hx]. exact Hx.
Qed.





Lemma truthy_string (v : value) : truthy v = true -> exists s, v = VStr s.
Proof. destruct v as [| |s]; try discriminate. intros _. exists s. reflexivity. Qed.

End Reconciler.

Lemma complete_record_iff (r : item) :
  incomplete r = false <-> complete_record r.
Proof.
  unfold incomplete, missing, complete_record. split.
  - intro H. apply orb_false_iff in H. destruct H as [H Hd].
    apply orb_false_iff in H. destruct H as [Ht Hl].
    apply negb_false_iff in Ht, Hl, Hd.
    destruct (title r) as [| |[|c t]]; try discriminate.
    destruct (link r) as [| |[|c' l]]; try discriminate.
    destruct (date r) as [| |[|c'' d]]; try discriminate.
    exists (c :: t), (c' :: l), (c'' :: d). repeat split; discriminate.
  - intros (t & l & d & -> & Ht & -> & Hl & -> & Hd).
    destruct t, l, d; try contradiction; reflexivity.
Qed.



(** C3 (as the code has it). When the input holds two records with the same
    title, link and date, and no record after the later one has the same
    joined key, the output of [mergeAndSort] holds exactly one record with
    that key, the later one; in [tools/scrape-otc-and-sec.js] provided the
    record is complete. *)
Theorem mergeAndSort_last_wins {E : Engine} :
  forall (l1 l2 l3 : list item) (a b : item),
    title a = title b -> link a = link b -> date a = date b ->
    Forall (fun r => key r <> key b) l3 ->
    with_key (key b) (Script.mergeAndSort (l1 ++ a :: l2 ++ b :: l3)) = [b]
    /\ (incomplete b = false ->
        with_key (key b) (Tools.mergeAndSort (l1 ++ a :: l2 ++ b :: l3)) = [b]).
Proof.
  intros l1 l2 l3 a b _ _ _ Hl3.
  assert (forall keep, keep b = true ->
            last_kept keep (key b) (l1 ++ a :: l2 ++ b :: l3) None = Some b) as Hlast.
  { intros keep Hb.
    replace (l1 ++ a :: l2 ++ b :: l3) with ((l1 ++ a :: l2) ++ [b] ++ l3)
      by (rewrite <- app_assoc; reflexivity).
    unfold last_kept. rewrite !fold_left_app. simpl.
    rewrite Hb, str_eqb_refl. simpl.
    apply last_kept_none_after.
    eapply Forall_impl; [|exact Hl3]. intros r Hr. simpl.
    apply str_eqb_neq in Hr. rewrite Hr. apply andb_false_r. }
  split.
  - rewrite Script_mergeAndSort_eq.
    pose proof (sorted_map_with_key (fun _ => true) (l1 ++ a :: l2 ++ b :: l3) (key b)) as Hp.
    rewrite (Hlast _ eq_refl) in Hp.
    apply Permutation_sym, Permutation_length_1_inv in Hp. exact Hp.
  - intro Hb. rewrite Tools_mergeAndSort_eq.
    pose proof (sorted_map_with_key (fun i => negb (incomplete i))
                  (l1 ++ a :: l2 ++ b :: l3) (key b)) as Hp.
    rewrite (Hlast (fun i => negb (incomplete i))) in Hp by (rewrite Hb; reflexivity).
    apply Permutation_sym, Permutation_length_1_inv in Hp. exact Hp.
Qed.

Lemma mergeAndSort_last_wins_witness :
  with_key (key twice_second)
    (@Script.mergeAndSort strict_engine
       ([press_release] ++ twice_first :: [quarterly] ++ twice_second :: [current_report]))
  = [twice_second]
  /\ (incomplete twice_second = false ->
      with_key (key twice_second)
        (@Tools.mergeAndSort strict_engine
           ([press_release] ++ twice_first :: [quarterly] ++ twice_second
              :: [current_report]))
      = [twice_second]).
Proof.
  apply (@mergeAndSort_last_wins strict_engine
           [press_release] [quarterly] [current_report] twice_first twice_second);
    try reflexivity.
  constructor; [|constructor].
  intro H. vm_compute in H. discriminate H.
Defined.

(** C3, where the claim fails: two undated records with the same title and
    link leave no record in the output of [tools/scrape-otc-and-sec.js]; and
    a later record with another title and link and the same joined key takes
    the place of the pair. *)
Lemma mergeAndSort_pair_lost :
  (title undated_first = title undated_second
   /\ link undated_first = link undated_second
   /\ date undated_first = date undated_second
   /\ description undated_first <> description undated_second
   /\ @Tools.mergeAndSort strict_engine [undated_first; undated_second] = [])
  /\ (title twice_first = title twice_second
      /\ link twice_first = link twice_second
      /\ date twice_first = date twice_second
      /\ description twice_first <> description twice_second
      /\ @Script.mergeAndSort strict_engine [twice_first; twice_second; bar_in_link]
         = [bar_in_link]
      /\ @Tools.mergeAndSort strict_engine [twice_first; twice_second; bar_in_link]
         = [bar_in_link]
      /\ title bar_in_link <> title twice_second).
Proof.
  repeat split; try reflexivity; intro H; vm_compute in H; discriminate H.
Qed.



(** C9. Two records with different titles and links are merged into one:
    their keys, the three fields joined with a bar, coincide when a title or
    a link contains a bar, and only the later record survives. *)
Theorem key_collision {E : Engine} :
  title bar_in_title <> title bar_in_link
  /\ link bar_in_title <> link bar_in_link
  /\ date bar_in_title = date bar_in_link
  /\ key bar_in_title = key bar_in_link
  /\ Script.mergeAndSort [bar_in_title; bar_in_link] = [bar_in_link]
  /\ Tools.mergeAndSort [bar_in_title; bar_in_link] = [bar_in_link].
Proof.
  repeat split; try reflexivity; intro H; vm_compute in H; discriminate H.
Qed.

(* ================================================================== *)
(** * Pagination *)
(* ================================================================== *)

Lemma ceil_div_spec (a b : Z) :
  0 < b -> b * (Widget.ceil_div a b - 1) < a <= b * Widget.ceil_div a b.
Proof.
  intro Hb. unfold Widget.ceil_div.
  pose proof (Z.div_mod (- a) b ltac:(lia)) as Hdm.
  pose proof (Z.mod_pos_bound (- a) b Hb) as Hm.
  nia.
Qed.

(** C8 (as the code has it). After [renderPage] the page index lies between
    1 and the number of pages, which is the larger of 1 and
    [ceil(total / 8)]; [ceil_div] is that ceiling. *)
Theorem renderPage_page_clamped :
  forall st : Widget.state,
    let total := Z.of_nat (List.length (Widget.filtered st)) in
    let pages := Widget.ceil_div total Widget.PAGE_SIZE in
    1 <= Widget.page (fst (Widget.renderPage st)) <= Z.max 1 pages
    /\ Widget.PAGE_SIZE * (pages - 1) < total <= Widget.PAGE_SIZE * pages.
Proof.
  intros st total pages. split.
  - cbn [Widget.renderPage fst Widget.page]. fold total. fold pages. lia.
  - apply ceil_div_spec. reflexivity.
Qed.

(** C8, where the claim fails: with no record to show the page index is 1
    and [ceil(0 / 8)] is 0. *)
Lemma renderPage_page_above_zero_pages :
  Widget.page (fst (Widget.renderPage empty_feed)) = 1
  /\ Widget.ceil_div (Z.of_nat (List.length (Widget.filtered empty_feed)))
                     Widget.PAGE_SIZE = 0.
Proof. split; reflexivity. Qed.

(* ================================================================== *)
(** * The regulatory extractor *)
(* ================================================================== *)

Section SecFilings.
Context {E : Engine}.


End SecFilings.



(* ================================================================== *)
(** * The date normalizer *)
(* ================================================================== *)

Lemma DayFromYear_next (y : Z) : DayFromYear (y + 1) = DayFromYear y + DaysInYear y.
Proof.
  unfold DayFromYear, DaysInYear, leap_days, is_leap.
  destruct (Z.eqb_spec (y mod 4) 0); cbn [negb];
    destruct (Z.eqb_spec (y mod 100) 0); cbn [negb];
      destruct (Z.eqb_spec (y mod 400) 0); cbn [negb];
        Z.div_mod_to_equations; lia.
Qed.

Lemma DayFromYear_mono (y1 y2 : Z) : y1 <= y2 -> DayFromYear y1 <= DayFromYear y2.
Proof. unfold DayFromYear. intro H. Z.div_mod_to_equations. lia. Qed.

Lemma year_search_finds (y d : Z) :
  DayFromYear y <= d < DayFromYear (y + 1) ->
  forall (fuel : nat) (y0 : Z),
    y <= y0 < y + Z.of_nat fuel -> year_search fuel y0 d = y.
Proof.
  intros Hd. induction fuel as [|fuel IH]; intros y0 Hy0; [lia|].
  simpl. destruct (Z.leb_spec (DayFromYear y0) d) as [Hle | Hgt].
  - destruct (Z.eq_dec y0 y) as [-> | Hne]; [reflexivity|].
    pose proof (DayFromYear_mono (y + 1) y0 ltac:(lia)). lia.
  - apply IH. destruct (Z.eq_dec y0 y) as [-> | Hne]; lia.
Qed.

Lemma year_above_bounds (y d : Z) :
  0 <= y <= 9999 ->
  DayFromYear y <= d < DayFromYear (y + 1) ->
  y <= year_above d < y + 1000.
Proof.
  unfold year_above, DayFromYear. intros Hy Hd.
  destruct (Z.ltb_spec d 0); Z.div_mod_to_equations; lia.
Qed.

Lemma year_search_spec (d : Z) :
  forall (fuel : nat) (y0 : Z),
    (0 < fuel)%nat ->
    d < DayFromYear (y0 + 1) ->
    DayFromYear (y0 - Z.of_nat fuel + 1) <= d ->
    DayFromYear (year_search fuel y0 d) <= d < DayFromYear (year_search fuel y0 d + 1).
Proof.
  induction fuel as [|fuel IH]; intros y0 Hpos Hhi Hlo; [lia|].
  simpl. destruct (Z.leb_spec (DayFromYear y0) d) as [Hle | Hgt]; [lia|].
  destruct fuel as [|fuel'].
  - replace (y0 - Z.of_nat 1 + 1) with y0 in Hlo by lia. lia.
  - apply IH; [lia | replace (y0 - 1 + 1) with y0 by lia; exact Hgt |].
    replace (y0 - 1 - Z.of_nat (S fuel') + 1) with (y0 - Z.of_nat (S (S fuel')) + 1) by lia.
    exact Hlo.
Qed.

Lemma year_above_is_above (d : Z) :
  - 100000000 <= d <= 100000000 ->
  d < DayFromYear (year_above d + 1) /\ DayFromYear (year_above d - 999) <= d.
Proof.
  unfold year_above, DayFromYear. intro Hd.
  destruct (Z.ltb_spec d 0); Z.div_mod_to_equations; lia.
Qed.

(** [YearFromTime(t)] is the largest [y] with [TimeFromYear(y) <= t], for
    every time value a Date can hold. *)
Lemma YearFromTime_spec (t : Z) :
  Z.abs t <= 8640000000000000 ->
  TimeFromYear (YearFromTime t) <= t < TimeFromYear (YearFromTime t + 1).
Proof.
  intro Ht. unfold TimeFromYear, YearFromTime.
  assert (- 100000000 <= Day t <= 100000000) as Hd
    by (unfold Day, msPerDay; Z.div_mod_to_equations; lia).
  destruct (year_above_is_above _ Hd) as [Hhi Hlo].
  pose proof (year_search_spec (Day t) 1000 (year_above (Day t)) ltac:(lia) Hhi) as Hs.
  replace (year_above (Day t) - Z.of_nat 1000 + 1) with (year_above (Day t) - 999) in Hs by lia.
  specialize (Hs Hlo).
  set (y := year_search 1000 (year_above (Day t)) (Day t)) in *.
  unfold Day, msPerDay in *. Z.div_mod_to_equations. lia.
Qed.

Lemma Day_of_midnight (day : Z) : Day (MakeDate day 0) = day.
Proof.
  unfold Day, MakeDate. rewrite Z.add_0_r. apply Z.div_mul. discriminate.
Qed.

Lemma leap_days_range (y : Z) : 0 <= leap_days y <= 1.
Proof. unfold leap_days. destruct (is_leap y); lia. Qed.

(** The day, month and year of the midnight that starts a calendar day are
    those of the day. *)
Lemma civil_of_midnight (y m d : Z) :
  0 <= y <= 9999 ->
  legal_date y m d = true ->
  let t := MakeDate (MakeDay y (m - 1) d) 0 in
  YearFromTime t = y /\ MonthFromTime t = m - 1 /\ DateFromTime t = d
  /\ TimeClip t = Some t /\ TimeWithinDay t = 0.
Proof.
  intros Hy Hlegal t.
  unfold legal_date in Hlegal.
  repeat (apply andb_true_iff in Hlegal; destruct Hlegal as [Hlegal ?]).
  assert (1 <= m <= 12) as Hm by lia.
  assert (1 <= d <= DaysInMonth y m) as Hd by lia.
  pose proof (leap_days_range y) as Hl.
  assert (MakeDay y (m - 1) d
          = DayFromYear y + month_start (m - 1) (leap_days y) + d - 1) as Hday.
  { unfold MakeDay.
    replace ((m - 1) / 12) with 0 by (Z.div_mod_to_equations; lia).
    replace ((m - 1) mod 12) with (m - 1) by (Z.div_mod_to_equations; lia).
    rewrite Z.add_0_r. reflexivity. }
  assert (0 <= month_start (m - 1) (leap_days y) + d - 1 < DaysInYear y) as Hin.
  { unfold DaysInYear.
    each_month m; month_rows; lia. }
  assert (YearFromTime t = y) as HY.
  { unfold YearFromTime, t. rewrite Day_of_midnight, Hday.
    assert (DayFromYear y
            <= DayFromYear y + month_start (m - 1) (leap_days y) + d - 1
            < DayFromYear (y + 1)) as Hb
      by (rewrite DayFromYear_next; lia).
    apply year_search_finds; [exact Hb|].
    pose proof (year_above_bounds y _ Hy Hb). simpl Z.of_nat. lia. }
  assert (DayWithinYear t = month_start (m - 1) (leap_days y) + d - 1) as HW.
  { unfold DayWithinYear. rewrite HY. unfold t. rewrite Day_of_midnight, Hday. lia. }
  assert (MonthFromTime t = m - 1) as HM.
  { unfold MonthFromTime, InLeapYear. rewrite HW, HY.
    each_month m; month_rows; split_ltb. }
  split; [exact HY|]. split; [exact HM|]. split; [|split].
  - unfold DateFromTime, InLeapYear. rewrite HM, HW, HY.
    each_month m; month_rows; lia.
  - unfold TimeClip, t, MakeDate. rewrite Hday.
    pose proof (DayFromYear_mono 0 y ltac:(lia)) as Hlo.
    pose proof (DayFromYear_mono y 9999 ltac:(lia)) as Hhi.
    change (DayFromYear 0) with (-719528) in Hlo.
    change (DayFromYear 9999) with 2932532 in Hhi.
    unfold DaysInYear in Hin. unfold msPerDay.
    destruct (Z.leb_spec
                (Z.abs ((DayFromYear y + month_start (m - 1) (leap_days y) + d - 1)
                        * 86400000 + 0)) 8640000000000000); [reflexivity|lia].
  - unfold TimeWithinDay, t, MakeDate. rewrite Z.add_0_r. apply Z.mod_mul. discriminate.
Qed.

Lemma is_digit_range (c : N) : is_digit c = true -> 0 <= digit_val c <= 9.
Proof.
  unfold is_digit, digit_val. intro H. apply andb_true_iff in H.
  destruct H as [H1 H2]. apply N.leb_le in H1, H2. lia.
Qed.

Lemma digit_char_val (c : N) (z : Z) :
  is_digit c = true -> z = digit_val c -> digit_char z = c.
Proof.
  intros Hc ->. pose proof (is_digit_range c Hc). unfold digit_char, digit_val in *.
  replace (Z.of_N c - 48 + 48) with (Z.of_N c) by lia. apply N2Z.id.
Qed.

Lemma pad2_digits (a b : N) :
  is_digit a = true -> is_digit b = true -> pad 2 (digits_val [a; b]) = [a; b].
Proof.
  intros Ha Hb.
  pose proof (is_digit_range a Ha). pose proof (is_digit_range b Hb).
  unfold digits_val. cbn [pad app fold_left].
  f_equal; [|f_equal]; apply digit_char_val; try assumption;
    Z.div_mod_to_equations; lia.
Qed.

Lemma pad4_digits (a b c d : N) :
  is_digit a = true -> is_digit b = true -> is_digit c = true -> is_digit d = true ->
  pad 4 (digits_val [a; b; c; d]) = [a; b; c; d]
  /\ 0 <= digits_val [a; b; c; d] <= 9999.
Proof.
  intros Ha Hb Hc Hd.
  pose proof (is_digit_range a Ha). pose proof (is_digit_range b Hb).
  pose proof (is_digit_range c Hc). pose proof (is_digit_range d Hd).
  unfold digits_val. cbn [pad app fold_left]. split; [|lia].
  f_equal; [|f_equal; [|f_equal; [|f_equal]]]; apply digit_char_val; try assumption;
    Z.div_mod_to_equations; lia.
Qed.

Section Normalizer.
Context {E : Engine}.

(** What [toISOString] prints for the midnight of a canonical date starts
    with the date. *)
Lemma canonical_time_value (s : jsstring) :
  is_canonical s = true ->
  exists t rest,
    Date_parse s = Some t /\ toISOString (Some t) = Normal (s ++ rest)
    /\ List.length s = 10%nat.
Proof.
  unfold is_canonical, Date_parse.
  destruct (parse_date_only s) as [[[y m] d]|] eqn:Hp; [|discriminate].
  intro Hlegal. rewrite Hlegal.
  unfold parse_date_only in Hp.
  destruct s as [|y1 [|y2 [|y3 [|y4 [|h1 [|m1 [|m2 [|h2 [|d1 [|d2 [|x s]]]]]]]]]]];
    try discriminate.
  destruct (forallb is_digit [y1; y2; y3; y4; m1; m2; d1; d2]
            && N.eqb h1 c_dash && N.eqb h2 c_dash) eqn:Hshape; [|discriminate].
  injection Hp as <- <- <-.
  apply andb_true_iff in Hshape. destruct Hshape as [Hshape Hh2].
  apply andb_true_iff in Hshape. destruct Hshape as [Hdig Hh1].
  apply N.eqb_eq in Hh1, Hh2. subst h1 h2.
  cbn [forallb] in Hdig.
  repeat (apply andb_true_iff in Hdig; destruct Hdig as [? Hdig]).
  destruct (pad4_digits y1 y2 y3 y4) as [Hy4 Hyr]; try assumption.
  pose proof (pad2_digits m1 m2 ltac:(assumption) ltac:(assumption)) as Hm2.
  pose proof (pad2_digits d1 d2 ltac:(assumption) ltac:(assumption)) as Hd2.
  destruct (civil_of_midnight _ _ _ Hyr Hlegal) as (HY & HM & HD & HC & _).
  rewrite HC. eexists. eexists. split; [reflexivity|]. split; [|reflexivity].
  unfold toISOString. rewrite HY, HM, HD.
  unfold year_string.
  destruct (Z.leb_spec 0 (digits_val [y1; y2; y3; y4])); [|lia].
  destruct (Z.leb_spec (digits_val [y1; y2; y3; y4]) 9999); [|lia].
  cbn [andb].
  replace (digits_val [m1; m2] - 1 + 1) with (digits_val [m1; m2]) by lia.
  rewrite Hy4, Hm2, Hd2. reflexivity.
Qed.

Lemma canonical_nonempty (s : jsstring) : is_canonical s = true -> truthy (VStr s) = true.
Proof.
  destruct s; [discriminate|reflexivity].
Qed.

End Normalizer.

(** C6. The date normalizer leaves a canonical date as it is: for every
    string [s] of the shape YYYY-MM-DD that names a calendar day, [toISO]
    returns [s], and so does the date step of the other script. *)
Theorem toISO_idempotent_on_canonical {E : Engine} :
  forall s : jsstring,
    is_canonical s = true ->
    Script.toISO (VStr s) = Normal (VStr s)
    /\ Tools.normalize_date (VStr s) = Normal (VStr s).
Proof.
  intros s Hs.
  destruct (canonical_time_value s Hs) as (t & rest & Hparse & Hiso & Hlen).
  pose proof (canonical_nonempty s Hs) as Htruthy.
  assert (slice0 10 (s ++ rest) = s) as Hslice.
  { unfold slice0. rewrite <- Hlen. rewrite firstn_app, Nat.sub_diag, firstn_all.
    simpl. apply app_nil_r. }
  unfold Script.toISO, Tools.normalize_date.
  rewrite Htruthy. cbn [Date_new]. rewrite Hparse. cbn [Date_isNaN negb].
  rewrite Hiso. cbn [bind]. rewrite Hslice. split; reflexivity.
Qed.

Lemma toISO_idempotent_on_canonical_witness :
  is_canonical (js "2024-02-29") = true
  /\ @Script.toISO strict_engine (VStr (js "2024-02-29")) = Normal (VStr (js "2024-02-29"))
  /\ @Tools.normalize_date strict_engine (VStr (js "2024-02-29"))
     = Normal (VStr (js "2024-02-29")).
Proof.
  split; [reflexivity|].
  apply (@toISO_idempotent_on_canonical strict_engine (js "2024-02-29")).
  reflexivity.
Defined.

(** C7. The date normalizer returns [null], and does not throw, on [null],
    on [undefined] and on the empty string; so does the date step of the
    other script. *)
Theorem toISO_null_safe {E : Engine} :
  Script.toISO VNull = Normal VNull
  /\ Script.toISO VUndefined = Normal VNull
  /\ Script.toISO (VStr []) = Normal VNull
  /\ Tools.normalize_date VNull = Normal VNull
  /\ Tools.normalize_date VUndefined = Normal VNull
  /\ Tools.normalize_date (VStr []) = Normal VNull.
Proof. repeat split. Qed.

(* ================================================================== *)
(** * A failing webpage scrape *)
(* ================================================================== *)

(** C2. When the webpage scrape throws, the pipeline script with the guarded
    scrape warns, takes the webpage records as empty and writes the
    reconciled regulatory records; [tools/scrape-otc-and-sec.js] has no such
    guard: there the run reports the error and exits with code 1 before
    any file is written. *)
Theorem scrape_failure_in_both_scripts {E : Engine} :
  (forall (w : world) (cik : value) (secItems : list item) (m : jsstring),
      resolveCikFromTicker w = Normal cik ->
      (if truthy cik then Script.getSecRecentFilings w cik else Normal [])
      = Normal secItems ->
      Script.scrapeOtcDisclosures w = Throw m ->
      writeFile w (Script.WRITE_PATH w) (Script.mergeAndSort secItems) = Normal tt ->
      Script.main w
      = [ ConsoleWarn [js "OTC scrape failed, continuing with SEC only:"; m];
          FileWritten (Script.WRITE_PATH w) (Script.mergeAndSort secItems);
          ConsoleLog (wrote_message (List.length (Script.mergeAndSort secItems))
                                    (Script.WRITE_PATH w)) ])
  /\ Script.main scrape_fails
     = [ ConsoleWarn [js "OTC scrape failed, continuing with SEC only:";
                      js "page.goto: Timeout 60000ms exceeded."];
         FileWritten (js "disclosures.json")
                     [filing_record (VStr (js "SEC EDGAR filing"))];
         ConsoleLog (js "Wrote 1 items to disclosures.json") ]
  /\ (forall (w : world) (m : jsstring),
        Tools.scrapeOtcDisclosures w = Throw m ->
        Tools.main w = [ConsoleError m; ProcessExit 1])
  /\ Tools.main scrape_fails
     = [ ConsoleError (js "page.goto: Timeout 60000ms exceeded."); ProcessExit 1 ].
Proof.
  split; [|split; [|split]].
  - intros w cik secItems m Hcik Hsec Hotc Hwrite.
    unfold Script.main, Script.main_body.
    rewrite Hcik, Hsec, Hotc. rewrite app_nil_r. rewrite Hwrite. reflexivity.
  - vm_compute. reflexivity.
  - intros w m Hotc. unfold Tools.main, Tools.main_body. rewrite Hotc. reflexivity.
  - vm_compute. reflexivity.
Qed.

(* ================================================================== *)
(** * More on the reconciler *)
(* ================================================================== *)

Lemma well_keyed_keys (m : jsmap item) :
  well_keyed m -> List.map key (map_values m) = List.map fst m.
Proof.
  intros [_ Hk]. unfold map_values. rewrite map_map.
  apply map_ext_in. intros p Hp. rewrite Forall_forall in Hk.
  symmetry. apply Hk. exact Hp.
Qed.

Lemma map_get_In {V : Type} (k : jsstring) (v : V) (m : jsmap V) :
  map_get k m = Some v -> In v (map_values m).
Proof.
  unfold map_values. induction m as [|[k' v'] m IH]; simpl; [discriminate|].
  destruct (str_eqb k k').
  - intros [= ->]. left. reflexivity.
  - intro H. right. apply IH. exact H.
Qed.

Lemma map_set_fresh {V : Type} (k : jsstring) (v : V) (m : jsmap V) :
  ~ In k (List.map fst m) -> map_set k v m = m ++ [(k, v)].
Proof.
  induction m as [|[k' v'] m IH]; simpl; intro H; [reflexivity|].
  destruct (str_eqb k k') eqn:Hk.
  - apply str_eqb_eq in Hk. subst. exfalso. apply H. left. reflexivity.
  - rewrite IH; [reflexivity|]. intro Hin. apply H. right. exact Hin.
Qed.

Section KeptRecords.
Variable keep : item -> bool.

Lemma last_kept_from_some (k : jsstring) (l : list item) :
  forall x0, key x0 = k ->
  exists x', last_kept keep k l (Some x0) = Some x' /\ key x' = k.
Proof.
  induction l as [|i l IH]; intros x0 Hx0; simpl.
  - exists x0. split; [reflexivity | exact Hx0].
  - destruct (keep i && str_eqb (key i) k) eqn:Hi.
    + apply IH. apply andb_true_iff in Hi. destruct Hi as [_ Hi].
      apply str_eqb_eq in Hi. exact Hi.
    + apply IH. exact Hx0.
Qed.

Lemma last_kept_found (r : item) (l : list item) :
  In r l -> keep r = true ->
  forall acc, exists r', last_kept keep (key r) l acc = Some r' /\ key r' = key r.
Proof.
  induction l as [|i l IH]; intros Hin Hk acc; [contradiction|].
  simpl. destruct Hin as [-> | Hin].
  - rewrite Hk, str_eqb_refl. simpl.
    apply last_kept_from_some. reflexivity.
  - apply IH; assumption.
Qed.

(** Keeping with [keep] is keeping everything of what [keep] lets through. *)
Lemma insert_all_filter (items : list item) (m : jsmap item) :
  insert_all keep items m = insert_all (fun _ => true) (filter keep items) m.
Proof.
  revert m. induction items as [|i items IH]; intro m; [reflexivity|].
  simpl. destruct (keep i); simpl; apply IH.
Qed.

End KeptRecords.

Lemma insert_all_fresh (items : list item) (m : jsmap item) :
  NoDup (List.map fst m ++ List.map key items) ->
  insert_all (fun _ => true) items m = m ++ List.map (fun i => (key i, i)) items.
Proof.
  revert m. induction items as [|i items IH]; intros m Hnd; simpl.
  - symmetry. apply app_nil_r.
  - simpl in Hnd.
    assert (~ In (key i) (List.map fst m)) as Hfresh.
    { intro Hin. apply NoDup_remove_2 in Hnd. apply Hnd.
      apply in_or_app. left. exact Hin. }
    rewrite (map_set_fresh _ _ _ Hfresh).
    rewrite IH.
    + rewrite <- app_assoc. reflexivity.
    + rewrite map_app. simpl. rewrite <- app_assoc. simpl.
      apply NoDup_remove_1 in Hnd as Hnd'.
      apply NoDup_remove_2 in Hnd as Hnot.
      clear IH Hfresh.
      apply (Permutation_NoDup (l := key i :: List.map fst m ++ List.map key items)).
      * apply Permutation_middle.
      * constructor; assumption.
Qed.

Section MoreReconciler.
Context {E : Engine}.

Lemma sorted_map_keys_distinct (keep : item -> bool) (items : list item) :
  NoDup (List.map key (array_sort by_date_desc (map_values (insert_all keep items [])))).
Proof.
  pose proof (insert_all_well_keyed keep items [] well_keyed_nil) as Hw.
  apply (Permutation_NoDup (l := List.map key (map_values (insert_all keep items [])))).
  - apply Permutation_map, Permutation_sym, array_sort_perm.
  - rewrite (well_keyed_keys _ Hw). exact (proj1 Hw).
Qed.

Lemma sorted_map_key_kept (keep : item -> bool) (items : list item) (k : jsstring) :
  In k (List.map key (array_sort by_date_desc (map_values (insert_all keep items []))))
  <-> exists r, In r items /\ keep r = true /\ key r = k.
Proof.
  split.
  - intro Hk. apply in_map_iff in Hk. destruct Hk as (r & Hkr & Hr).
    apply sorted_map_members in Hr. exists r. tauto.
  - intros (r & Hr & Hkeep & <-).
    destruct (last_kept_found keep r items Hr Hkeep None) as (r' & Hlast & Hkey).
    apply in_map_iff. exists r'. split; [exact Hkey|].
    apply (Permutation_in _ (Permutation_sym (array_sort_perm by_date_desc _))).
    apply (map_get_In (key r)). rewrite insert_all_get. exact Hlast.
Qed.

End MoreReconciler.

(** X1. The output of [mergeAndSort] holds every key once: no two of its
    records have the same key, and a key occurs in it exactly when it is the
    key of an input record (of a complete input record, in
    [tools/scrape-otc-and-sec.js]). *)
Theorem mergeAndSort_one_record_per_key {E : Engine} :
  forall items : list item,
    (NoDup (List.map key (Script.mergeAndSort items))
     /\ forall k, In k (List.map key (Script.mergeAndSort items))
                  <-> exists r, In r items /\ key r = k)
    /\ (NoDup (List.map key (Tools.mergeAndSort items))
        /\ forall k, In k (List.map key (Tools.mergeAndSort items))
                     <-> exists r, In r items /\ incomplete r = false /\ key r = k).
Proof.
  intro items. split; split.
  - rewrite Script_mergeAndSort_eq. apply sorted_map_keys_distinct.
  - intro k. rewrite Script_mergeAndSort_eq, sorted_map_key_kept.
    split; intros (r & H); exists r; tauto.
  - rewrite Tools_mergeAndSort_eq. apply sorted_map_keys_distinct.
  - intro k. rewrite Tools_mergeAndSort_eq, sorted_map_key_kept.
    split; intros (r & Hr & Hc & Hk); exists r; (split; [exact Hr|split; [|exact Hk]]).
    + apply negb_true_iff. exact Hc.
    + apply negb_true_iff. exact Hc.
Qed.

(** X2. The reconciler of [tools/scrape-otc-and-sec.js] is the reconciler of
    the other script applied to the complete records of the input. *)
Theorem Tools_mergeAndSort_filters_then_merges {E : Engine} :
  forall items : list item,
    Tools.mergeAndSort items
    = Script.mergeAndSort (filter (fun i => negb (incomplete i)) items).
Proof.
  intro items. rewrite Tools_mergeAndSort_eq, Script_mergeAndSort_eq.
  rewrite insert_all_filter. reflexivity.
Qed.

(** X3. When no two input records have the same key, [mergeAndSort] only
    reorders: its output is a permutation of the input (of the complete
    records of the input, in [tools/scrape-otc-and-sec.js]). *)
Theorem mergeAndSort_permutes_distinct_keys {E : Engine} :
  forall items : list item,
    NoDup (List.map key items) ->
    Permutation (Script.mergeAndSort items) items
    /\ Permutation (Tools.mergeAndSort items)
                   (filter (fun i => negb (incomplete i)) items).
Proof.
  intros items Hnd.
  assert (forall l, NoDup (List.map key l) ->
            Permutation
              (array_sort by_date_desc (map_values (insert_all (fun _ => true) l [])))
              l) as H.
  { intros l Hl. eapply Permutation_trans; [apply array_sort_perm|].
    rewrite insert_all_fresh by exact Hl. simpl.
    unfold map_values. rewrite map_map. simpl. rewrite map_id.
    apply Permutation_refl. }
  split.
  - rewrite Script_mergeAndSort_eq. apply H. exact Hnd.
  - rewrite Tools_mergeAndSort_eq, insert_all_filter. apply H.
    clear H. induction items as [|i items IH]; simpl; [constructor|].
    inversion Hnd as [|? ? Hnotin Hnd']; subst.
    destruct (negb (incomplete i)); simpl; [|apply IH; exact Hnd'].
    constructor; [|apply IH; exact Hnd'].
    intro Hin. apply Hnotin. apply in_map_iff in Hin.
    destruct Hin as (x & Hx & Hin). apply filter_In in Hin.
    apply in_map_iff. exists x. tauto.
Qed.

Lemma mergeAndSort_permutes_distinct_keys_witness :
  Permutation (@Script.mergeAndSort strict_engine three_dated) three_dated
  /\ Permutation (@Tools.mergeAndSort strict_engine three_dated)
                 (filter (fun i => negb (incomplete i)) three_dated).
Proof.
  apply (@mergeAndSort_permutes_distinct_keys strict_engine three_dated).
  repeat constructor; intro H; vm_compute in H; intuition discriminate.
Defined.

(* ================================================================== *)
(** * More on the regulatory extractor *)
(* ================================================================== *)

Lemma replace_dashes (a : jsstring) :
  replace_class (N.eqb c_dash) (fun _ => VStr []) a = without_dashes a.
Proof.
  induction a as [|c a IH]; [reflexivity|].
  cbn [replace_class]. rewrite IH. unfold without_dashes. cbn [filter].
  rewrite (N.eqb_sym c c_dash).
  destruct (N.eqb c_dash c); reflexivity.
Qed.

Lemma strip_dashes_cases (v : value) :
  strip_dashes v
  = if is_string v then Normal (without_dashes (ToString v)) else Throw replace_TypeError.
Proof.
  destruct v as [| |a]; try reflexivity. simpl. rewrite replace_dashes. reflexivity.
Qed.

Section SecLoops.
Context {E : Engine}.

Lemma Script_sec_loop_spec (c : value) (r : recent) (idx : list nat) :
  forall out,
    Script.sec_loop c r idx out
    = let kept := filter (fun i => is_disclosure_form (index (form r) i)) idx in
      if forallb (fun i => is_string (index (accessionNumber r) i)) kept
      then Normal (out ++ List.map (Script_filing c r) kept)
      else Throw replace_TypeError.
Proof.
  induction idx as [|i idx IH]; intro out; simpl.
  - rewrite app_nil_r. reflexivity.
  - destruct (is_disclosure_form (index (form r) i)); simpl.
    + rewrite strip_dashes_cases.
      destruct (is_string (index (accessionNumber r) i)); simpl; [|reflexivity].
      rewrite IH. simpl.
      destruct (forallb _ _); [|reflexivity].
      rewrite <- app_assoc. reflexivity.
    + apply IH.
Qed.

Lemma Tools_sec_loop_spec (c : value) (r : recent) (idx : list nat) :
  forall out,
    Tools.sec_loop c r idx out
    = let kept := filter (fun i => is_disclosure_form (index (form r) i)) idx in
      if forallb (fun i => is_string (index (accessionNumber r) i)) kept
      then Normal (out ++ List.map (Tools_filing c r) kept)
      else Throw replace_TypeError.
Proof.
  induction idx as [|i idx IH]; intro out; simpl.
  - rewrite app_nil_r. reflexivity.
  - destruct (is_disclosure_form (index (form r) i)); simpl.
    + rewrite strip_dashes_cases.
      destruct (is_string (index (accessionNumber r) i)); simpl; [|reflexivity].
      rewrite IH. simpl.
      destruct (forallb _ _); [|reflexivity].
      rewrite <- app_assoc. reflexivity.
    + apply IH.
Qed.

Lemma kept_indices_bound (r : recent) (n : nat) :
  (List.length (kept_indices r n) <= n)%nat
  /\ Forall (fun i => (i < n)%nat /\ is_disclosure_form (index (form r) i) = true)
            (kept_indices r n).
Proof.
  unfold kept_indices. split.
  - eapply Nat.le_trans; [apply filter_length_le|]. rewrite length_seq. lia.
  - apply Forall_forall. intros i Hi. apply filter_In in Hi.
    destruct Hi as [Hi Hf]. apply in_seq in Hi. split; [lia | exact Hf].
Qed.

Lemma kept_form (v : value) :
  is_disclosure_form v = true -> exists f, v = VStr f /\ In f keepForms.
Proof.
  destruct v as [| |s]; try discriminate. unfold is_disclosure_form. intro H.
  apply existsb_exists in H. destruct H as (f & Hf & Heq).
  apply str_eqb_eq in Heq. subst. exists f. split; [reflexivity | exact Hf].
Qed.

End SecLoops.



Section SecShape.
Context {E : Engine}.

Lemma filing_at_shaped (r : recent) (i : nat) (descr : value) (rest : jsstring) :
  is_disclosure_form (index (form r) i) = true ->
  sec_shaped (filing_at r i descr (archive_prefix ++ rest)).
Proof.
  intro Hf. destruct (kept_form _ Hf) as (f & Hv & Hin).
  split; [reflexivity|]. split.
  - exists f. split; [exact Hin|]. simpl. rewrite Hv. reflexivity.
  - exists rest. reflexivity.
Qed.

Lemma kept_filings_shaped (r : recent) (n : nat) (mk : nat -> item) :
  (forall i, is_disclosure_form (index (form r) i) = true -> sec_shaped (mk i)) ->
  (n <= 200)%nat ->
  (List.length (List.map mk (kept_indices r n)) <= 200)%nat
  /\ Forall sec_shaped (List.map mk (kept_indices r n)).
Proof.
  intros Hmk Hn. destruct (kept_indices_bound r n) as [Hlen Hall].
  split; [rewrite length_map; lia|].
  apply Forall_forall. intros x Hx. apply in_map_iff in Hx.
  destruct Hx as (i & <- & Hi). rewrite Forall_forall in Hall.
  apply Hmk. apply (Hall i Hi).
Qed.

End SecShape.

(** X6. Whatever the response, the regulatory extractor of either script
    returns at most 200 records, each with source SEC, a title made of one
    of the nine kept forms followed by " filed", and a link under
    https://www.sec.gov/Archives/edgar/data/. *)
Theorem sec_records_capped_and_shaped {E : Engine} :
  forall (w : world) (cik10 : value) (subs : submissions),
    match Script.getSecRecentFilings w cik10 with
    | Normal out => (List.length out <= 200)%nat /\ Forall sec_shaped out
    | Throw _ => True
    end
    /\ match Tools.filterMapSecFilings subs with
       | Normal out => (List.length out <= 200)%nat /\ Forall sec_shaped out
       | Throw _ => True
       end.
Proof.
  intros w cik10 subs. split.
  - unfold Script.getSecRecentFilings.
    destruct (fetch_json w _) as [json|m]; [|exact I].
    cbn [bind]. destruct (filings_recent json) as [r|];
      [|split; [simpl; lia | constructor]].
    rewrite Script_sec_loop_spec. cbv zeta.
    destruct (forallb _ _); [|exact I].
    apply (kept_filings_shaped r (Nat.min (List.length (form r)) 200)
             (Script_filing cik10 r)); [|lia].
    intros i Hi. apply filing_at_shaped. exact Hi.
  - unfold Tools.filterMapSecFilings.
    destruct (filings_recent subs) as [r|];
      [|split; [simpl; lia | constructor]].
    rewrite Tools_sec_loop_spec. cbv zeta.
    destruct (forallb _ _); [|exact I].
    apply (kept_filings_shaped r (Nat.min (List.length (accessionNumber r)) 200)
             (Tools_filing (cik subs) r)); [|lia].
    intros i Hi. apply filing_at_shaped. exact Hi.
Qed.



(** X8. When one of the first 200 forms of the response is a kept form and
    the response has no accession number at that position,
    [getSecRecentFilings] throws a TypeError, and no record is returned. *)
Theorem getSecRecentFilings_throws_without_accession {E : Engine} :
  forall (w : world) (cik10 : value) (json : submissions) (r : recent) (i : nat),
    fetch_json w (js "https://data.sec.gov/submissions/CIK"
                  ++ ToString cik10 ++ js ".json") = Normal json ->
    filings_recent json = Some r ->
    (i < Nat.min (List.length (form r)) 200)%nat ->
    is_disclosure_form (index (form r) i) = true ->
    (List.length (accessionNumber r) <= i)%nat ->
    Script.getSecRecentFilings w cik10 = Throw replace_TypeError.
Proof.
  intros w cik10 json r i Hfetch Hrecent Hi Hform Hshort.
  unfold Script.getSecRecentFilings. rewrite Hfetch. cbn [bind]. rewrite Hrecent.
  rewrite Script_sec_loop_spec. cbv zeta.
  destruct (forallb _ _) eqn:Hall; [|reflexivity].
  rewrite forallb_forall in Hall.
  assert (is_string (index (accessionNumber r) i) = true) as Hs.
  { apply Hall. apply filter_In. split; [apply in_seq; lia | exact Hform]. }
  unfold index in Hs. rewrite nth_overflow in Hs by exact Hshort. discriminate Hs.
Qed.

Lemma getSecRecentFilings_throws_without_accession_witness :
  @Script.getSecRecentFilings strict_engine
     {| env_WRITE_PATH := VUndefined;
        resolveCikFromTicker := Normal issuer_id;
        fetch_json := fun _ => Normal {| cik := issuer_id;
                                         filings_recent := Some ragged_filing |};
        page_rows := Normal [];
        writeFile := fun _ _ => Normal tt |}
     issuer_id
  = Throw replace_TypeError.
Proof.
  apply (@getSecRecentFilings_throws_without_accession strict_engine _ issuer_id
           {| cik := issuer_id; filings_recent := Some ragged_filing |}
           ragged_filing 2%nat);
    first [ reflexivity | vm_compute; lia ].
Defined.

(* ================================================================== *)
(** * More on the date normalizer *)
(* ================================================================== *)

Lemma pad_length (n : nat) (z : Z) : List.length (pad n z) = n.
Proof.
  revert z. induction n as [|n IH]; intro z; [reflexivity|].
  simpl. rewrite length_app, IH. simpl. lia.
Qed.

Lemma toISOString_long (t : Z) :
  exists s, toISOString (Some t) = Normal s /\ (10 <= List.length s)%nat.
Proof.
  unfold toISOString. eexists. split; [reflexivity|].
  rewrite !length_app, !pad_length. simpl. lia.
Qed.

Section NormalizerShape.
Context {E : Engine}.

Lemma toISO_cases (d : value) :
  Script.toISO d = Normal VNull
  \/ exists s, Script.toISO d = Normal (VStr s) /\ List.length s = 10%nat.
Proof.
  unfold Script.toISO. destruct (truthy d); [|left; reflexivity].
  destruct (Date_new d) as [t|]; [|left; reflexivity].
  cbn [Date_isNaN negb]. destruct (toISOString_long t) as (s & -> & Hlen).
  right. exists (slice0 10 s). split; [reflexivity|].
  unfold slice0. rewrite length_firstn. lia.
Qed.

Lemma normalize_date_toISO (d : value) : Tools.normalize_date d = Script.toISO d.
Proof.
  unfold Tools.normalize_date, Script.toISO. destruct (truthy d); [|reflexivity].
  destruct (Date_new d) as [t|]; reflexivity.
Qed.

(** Rewriting the dates of the rows never throws and keeps the other
    fields. *)
Lemma map_toISO_total (rows : list item) :
  exists mapped,
    Script.map_toISO rows = Normal mapped
    /\ Forall2 (fun row x =>
                  source x = source row /\ title x = title row
                  /\ description x = description row /\ link x = link row
                  /\ Script.toISO (date row) = Normal (date x))
               rows mapped.
Proof.
  induction rows as [|row rows (mapped & Hm & Hall)].
  - exists []. split; [reflexivity | constructor].
  - simpl. rewrite Hm.
    destruct (toISO_cases (date row)) as [Hd | (s & Hd & _)]; rewrite Hd; cbn [bind];
      eexists; (split; [reflexivity|]); constructor; try exact Hall;
      cbn; rewrite Hd; tauto.
Qed.

Lemma map_normalize_map_toISO (rows : list item) :
  Tools.map_normalize rows = Script.map_toISO rows.
Proof.
  induction rows as [|row rows IH]; [reflexivity|].
  simpl. rewrite normalize_date_toISO, IH. reflexivity.
Qed.

End NormalizerShape.

(** X9. The date normalizer never throws: whatever its argument, [toISO]
    returns [null] or a string of exactly ten code units, and the date step
    of [tools/scrape-otc-and-sec.js] returns the same as [toISO]. *)
Theorem toISO_returns_null_or_ten_units {E : Engine} :
  forall d : value,
    (Script.toISO d = Normal VNull
     \/ exists s, Script.toISO d = Normal (VStr s) /\ List.length s = 10%nat)
    /\ Tools.normalize_date d = Script.toISO d.
Proof.
  intro d. split; [apply toISO_cases | apply normalize_date_toISO].
Qed.

Section ScrapeAfterPage.
Context {E : Engine}.

Lemma mapped_from_rows (rows mapped : list item) :
  Forall2 (fun row x =>
             source x = source row /\ title x = title row
             /\ description x = description row /\ link x = link row
             /\ Script.toISO (date row) = Normal (date x))
          rows mapped ->
  Forall (from_row rows) mapped /\ List.length mapped = List.length rows.
Proof.
  induction 1 as [|row x rows mapped Hx _ [IH Hlen]].
  - split; [constructor | reflexivity].
  - split; [|simpl; lia]. constructor.
    + exists row. split; [left; reflexivity | exact Hx].
    + eapply Forall_impl; [|exact IH].
      intros y (row' & Hin & Hy). exists row'. split; [right; exact Hin | exact Hy].
Qed.

Lemma filter_keeps_Forall {A : Type} (P : A -> Prop) (f : A -> bool) (l : list A) :
  Forall P l -> Forall (fun x => P x /\ f x = true) (filter f l).
Proof.
  intro H. apply Forall_forall. intros x Hx. apply filter_In in Hx.
  rewrite Forall_forall in H. split; [apply H|]; tauto.
Qed.

Lemma filter_twice {A : Type} (f g : A -> bool) (l : list A) :
  filter f (filter g l) = filter (fun x => g x && f x) l.
Proof.
  induction l as [|x l IH]; [reflexivity|].
  simpl. destruct (g x); simpl; [destruct (f x)|]; rewrite IH; reflexivity.
Qed.

End ScrapeAfterPage.

(** X10. Only the page can make the webpage extractor fail: when the page
    evaluation throws, [scrapeOtcDisclosures] throws the same; when it
    returns rows, [scrapeOtcDisclosures] returns records, no more than there
    are rows, each a row with its date normalized and with a non-empty title
    and link.  The script with [toISO] drops the undated ones as well: its
    result is the dated part of the result of
    [tools/scrape-otc-and-sec.js]. *)
Theorem scrapeOtcDisclosures_after_page {E : Engine} :
  forall w : world,
    match page_rows w with
    | Throw m =>
        Script.scrapeOtcDisclosures w = Throw m
        /\ Tools.scrapeOtcDisclosures w = Throw m
    | Normal rows =>
        exists kept,
          Tools.scrapeOtcDisclosures w = Normal kept
          /\ Script.scrapeOtcDisclosures w
             = Normal (filter (fun i => truthy (date i)) kept)
          /\ (List.length kept <= List.length rows)%nat
          /\ Forall (fun x => from_row rows x
                              /\ truthy (title x) && truthy (link x) = true) kept
    end.
Proof.
  intro w. unfold Script.scrapeOtcDisclosures, Tools.scrapeOtcDisclosures.
  destruct (page_rows w) as [rows|m]; [|split; reflexivity].
  cbn [bind]. rewrite map_normalize_map_toISO.
  destruct (map_toISO_total rows) as (mapped & -> & Hall).
  cbn [bind]. destruct (mapped_from_rows _ _ Hall) as [Hfrom Hlen].
  eexists. split; [reflexivity|]. split; [|split].
  - f_equal. rewrite filter_twice. apply filter_ext. intro i.
    unfold Script.complete. reflexivity.
  - rewrite <- Hlen. apply filter_length_le.
  - apply filter_keeps_Forall. exact Hfrom.
Qed.

Lemma Day_between (a b t : Z) :
  msPerDay * a <= t < msPerDay * b -> a <= Day t < b.
Proof.
  intros [Hlo Hhi]. unfold Day. split.
  - apply Z.div_le_lower_bound; [reflexivity | exact Hlo].
  - apply Z.div_lt_upper_bound; [reflexivity | exact Hhi].
Qed.

Lemma TimeFromYear_days (y : Z) : TimeFromYear y = msPerDay * DayFromYear y.
Proof. reflexivity. Qed.

Lemma Day_in_year (t : Z) :
  Z.abs t <= 8640000000000000 ->
  DayFromYear (YearFromTime t) <= Day t < DayFromYear (YearFromTime t + 1).
Proof.
  intro Ht. pose proof (YearFromTime_spec t Ht) as H.
  rewrite !TimeFromYear_days in H. apply Day_between. exact H.
Qed.

(** The month and the day of the month that the tables give a day of the
    year. *)
Lemma civil_of_time (t : Z) :
  Z.abs t <= 8640000000000000 ->
  let y := YearFromTime t in
  0 <= MonthFromTime t <= 11
  /\ 1 <= DateFromTime t <= DaysInMonth y (MonthFromTime t + 1)
  /\ DayFromYear y + month_start (MonthFromTime t) (leap_days y) + DateFromTime t - 1
     = Day t.
Proof.
  intros Ht y. pose proof (Day_in_year t Ht) as Hd. fold y in Hd.
  rewrite DayFromYear_next in Hd. unfold DaysInYear in Hd.
  pose proof (leap_days_range y) as Hl.
  unfold DateFromTime, MonthFromTime, InLeapYear, DayWithinYear. fold y.
  set (d := Day t - DayFromYear y).
  assert (0 <= d < 365 + leap_days y) as Hdr by (unfold d; lia).
  assert (Day t = DayFromYear y + d) as -> by (unfold d; lia).
  clearbody d. clear Hd Ht.
  destruct (Z.ltb_spec d 31); [month_leaf|].
  destruct (Z.ltb_spec d (59 + leap_days y)); [month_leaf|].
  destruct (Z.ltb_spec d (90 + leap_days y)); [month_leaf|].
  destruct (Z.ltb_spec d (120 + leap_days y)); [month_leaf|].
  destruct (Z.ltb_spec d (151 + leap_days y)); [month_leaf|].
  destruct (Z.ltb_spec d (181 + leap_days y)); [month_leaf|].
  destruct (Z.ltb_spec d (212 + leap_days y)); [month_leaf|].
  destruct (Z.ltb_spec d (243 + leap_days y)); [month_leaf|].
  destruct (Z.ltb_spec d (273 + leap_days y)); [month_leaf|].
  destruct (Z.ltb_spec d (304 + leap_days y)); [month_leaf|].
  destruct (Z.ltb_spec d (334 + leap_days y)); month_leaf.
Qed.

Lemma digit_char_is_digit (d : Z) : 0 <= d <= 9 -> is_digit (digit_char d) = true.
Proof.
  intro Hd. unfold is_digit, digit_char. apply andb_true_iff.
  split; apply N.leb_le; lia.
Qed.

Lemma digit_val_char (d : Z) : 0 <= d <= 9 -> digit_val (digit_char d) = d.
Proof. intro Hd. unfold digit_val, digit_char. lia. Qed.

Lemma pad2_parse (z : Z) :
  0 <= z <= 99 ->
  exists a b, pad 2 z = [a; b] /\ is_digit a = true /\ is_digit b = true
              /\ digits_val [a; b] = z.
Proof.
  intro Hz. exists (digit_char ((z / 10) mod 10)), (digit_char (z mod 10)).
  assert (0 <= z mod 10 <= 9) by (Z.div_mod_to_equations; lia).
  assert (0 <= (z / 10) mod 10 <= 9) by (Z.div_mod_to_equations; lia).
  split; [reflexivity|].
  split; [apply digit_char_is_digit; assumption|].
  split; [apply digit_char_is_digit; assumption|].
  unfold digits_val. cbn [fold_left]. rewrite !digit_val_char by assumption.
  Z.div_mod_to_equations. lia.
Qed.

Lemma pad4_parse (z : Z) :
  0 <= z <= 9999 ->
  exists a b c d,
    pad 4 z = [a; b; c; d]
    /\ is_digit a = true /\ is_digit b = true /\ is_digit c = true /\ is_digit d = true
    /\ digits_val [a; b; c; d] = z.
Proof.
  intro Hz.
  exists (digit_char ((z / 10 / 10 / 10) mod 10)), (digit_char ((z / 10 / 10) mod 10)),
         (digit_char ((z / 10) mod 10)), (digit_char (z mod 10)).
  assert (0 <= z mod 10 <= 9) by (Z.div_mod_to_equations; lia).
  assert (0 <= (z / 10) mod 10 <= 9) by (Z.div_mod_to_equations; lia).
  assert (0 <= (z / 10 / 10) mod 10 <= 9) by (Z.div_mod_to_equations; lia).
  assert (0 <= (z / 10 / 10 / 10) mod 10 <= 9) by (Z.div_mod_to_equations; lia).
  split; [reflexivity|].
  repeat (split; [apply digit_char_is_digit; assumption|]).
  unfold digits_val. cbn [fold_left]. rewrite !digit_val_char by assumption.
  Z.div_mod_to_equations. lia.
Qed.

(** A calendar day printed as YYYY-MM-DD is a canonical date that reads back
    as that day. *)
Lemma printed_date_canonical (y m d : Z) :
  0 <= y <= 9999 -> legal_date y m d = true ->
  let r := pad 4 y ++ js "-" ++ pad 2 m ++ js "-" ++ pad 2 d in
  parse_date_only r = Some (y, m, d) /\ is_canonical r = true.
Proof.
  intros Hy Hlegal r.
  assert (1 <= m <= 12 /\ 1 <= d <= 31) as [Hm Hd].
  { unfold legal_date in Hlegal.
    repeat (apply andb_true_iff in Hlegal; destruct Hlegal as [Hlegal ?]).
    assert (DaysInMonth y m <= 31)
      by (pose proof (leap_days_range y); each_month m; unfold DaysInMonth; lia).
    lia. }
  destruct (pad4_parse y Hy) as (y1 & y2 & y3 & y4 & Hpy & ? & ? & ? & ? & Hvy).
  destruct (pad2_parse m ltac:(lia)) as (m1 & m2 & Hpm & ? & ? & Hvm).
  destruct (pad2_parse d ltac:(lia)) as (d1 & d2 & Hpd & ? & ? & Hvd).
  assert (parse_date_only r = Some (y, m, d)) as Hparse.
  { unfold r. rewrite Hpy, Hpm, Hpd. cbn [app js List.map list_ascii_of_string].
    unfold parse_date_only. cbn [forallb].
    repeat match goal with H : is_digit _ = true |- _ => rewrite H; clear H end.
    change (N_of_ascii "-") with c_dash. rewrite N.eqb_refl. cbn [andb].
    rewrite Hvy, Hvm, Hvd. reflexivity. }
  split; [exact Hparse|]. unfold is_canonical. rewrite Hparse. exact Hlegal.
Qed.

Section NormalizerResults.
Context {E : Engine}.

Lemma toISO_fixes_canonical (s : jsstring) :
  is_canonical s = true -> Script.toISO (VStr s) = Normal (VStr s).
Proof.
  intro Hs.
  destruct (canonical_time_value s Hs) as (t & rest & Hparse & Hiso & Hlen).
  unfold Script.toISO. rewrite (canonical_nonempty s Hs).
  cbn [Date_new]. rewrite Hparse. cbn [Date_isNaN negb].
  rewrite Hiso. cbn [bind]. do 2 f_equal.
  unfold slice0. rewrite <- Hlen. rewrite firstn_app, Nat.sub_diag, firstn_all.
  simpl. apply app_nil_r.
Qed.

(** What [toISO] makes of a time value in a year of four digits. *)
Lemma toISO_of_time (s : jsstring) (t : Z) :
  truthy (VStr s) = true ->
  Date_parse s = Some t ->
  Z.abs t <= 8640000000000000 ->
  0 <= YearFromTime t <= 9999 ->
  exists r,
    Script.toISO (VStr s) = Normal (VStr r)
    /\ is_canonical r = true
    /\ Date_parse r = Some (Day t * msPerDay).
Proof.
  intros Htruthy Hparse Ht Hyear.
  pose proof (civil_of_time t Ht) as Hc. cbv zeta in Hc.
  unfold Script.toISO. rewrite Htruthy. cbn [Date_new]. rewrite Hparse.
  cbn [Date_isNaN negb]. unfold toISOString, year_string.
  remember (YearFromTime t) as y eqn:Hy.
  remember (MonthFromTime t) as m0 eqn:Hm0.
  remember (DateFromTime t) as dt eqn:Hdt.
  destruct Hc as (Hm & Hd & Hday).
  destruct (Z.leb_spec 0 y); [|lia]. destruct (Z.leb_spec y 9999); [|lia].
  cbn [andb bind].
  assert (legal_date y (m0 + 1) dt = true) as Hlegal.
  { unfold legal_date. repeat (apply andb_true_iff; split); apply Z.leb_le; lia. }
  destruct (printed_date_canonical y (m0 + 1) dt Hyear Hlegal) as [Hp Hcan].
  exists (pad 4 y ++ js "-" ++ pad 2 (m0 + 1) ++ js "-" ++ pad 2 dt).
  split; [|split; [exact Hcan|]].
  - reflexivity.
  - unfold Date_parse. rewrite Hp, Hlegal.
    destruct (civil_of_midnight y (m0 + 1) dt Hyear Hlegal) as (_ & _ & _ & HC & _).
    rewrite HC. f_equal. unfold MakeDate, MakeDay. cbv zeta.
    replace (m0 + 1 - 1) with m0 by lia.
    replace (m0 / 12) with 0 by (Z.div_mod_to_equations; lia).
    replace (m0 mod 12) with m0 by (Z.div_mod_to_equations; lia).
    rewrite !Z.add_0_r, Hday. reflexivity.
Qed.

End NormalizerResults.

(** X11. When the date text parses to a time value whose year has four
    digits, [toISO] returns a canonical date: the UTC calendar day of that
    time value (it reads back as the midnight that starts the day), which
    [toISO] then leaves unchanged. *)
Theorem toISO_returns_the_UTC_day {E : Engine} :
  forall (s : jsstring) (t : Z),
    truthy (VStr s) = true ->
    Date_parse s = Some t ->
    Z.abs t <= 8640000000000000 ->
    0 <= YearFromTime t <= 9999 ->
    exists r,
      Script.toISO (VStr s) = Normal (VStr r)
      /\ is_canonical r = true
      /\ Date_parse r = Some (Day t * msPerDay)
      /\ Script.toISO (VStr r) = Normal (VStr r).
Proof.
  intros s t Htruthy Hparse Ht Hyear.
  destruct (toISO_of_time s t Htruthy Hparse Ht Hyear) as (r & Hr & Hcan & Hback).
  exists r. repeat split; try assumption. apply toISO_fixes_canonical. exact Hcan.
Qed.

Lemma toISO_returns_the_UTC_day_witness :
  exists r,
    @Script.toISO leap_evening_engine (VStr (js "Feb 29, 2024 11:59 PM")) = Normal (VStr r)
    /\ is_canonical r = true
    /\ @Date_parse leap_evening_engine r = Some (Day 1709251199999 * msPerDay)
    /\ @Script.toISO leap_evening_engine (VStr r) = Normal (VStr r).
Proof.
  apply (@toISO_returns_the_UTC_day leap_evening_engine
           (js "Feb 29, 2024 11:59 PM") 1709251199999).
  - reflexivity.
  - reflexivity.
  - vm_compute. discriminate.
  - vm_compute. split; discriminate.
Defined.

(* ================================================================== *)
(** * The issuer identifier in the link *)
(* ================================================================== *)

Lemma Qred_inject_Z (z : Z) : Qred (inject_Z z) = inject_Z z.
Proof.
  unfold Qred, inject_Z.
  pose proof (Z.ggcd_gcd z 1) as Hg.
  pose proof (Z.ggcd_correct_divisors z 1) as Hd.
  change (Z.pos 1) with 1.
  destruct (Z.ggcd z 1) as [g [r1 r2]]. cbn [fst snd] in *.
  rewrite Z.gcd_1_r in Hg. subst g. destruct Hd as [Hz H1].
  rewrite Z.mul_1_l in Hz, H1. subst r1 r2. reflexivity.
Qed.

Lemma digits_val_zeros (k : nat) (s : jsstring) :
  digits_val (repeat c_zero k ++ s) = digits_val s.
Proof.
  unfold digits_val. rewrite fold_left_app. f_equal.
  induction k as [|k IH]; [reflexivity|]. simpl. exact IH.
Qed.

Lemma digits_val_nonneg (s : jsstring) :
  forallb is_digit s = true -> 0 <= digits_val s.
Proof.
  unfold digits_val.
  assert (forall l a, forallb is_digit l = true -> 0 <= a ->
            0 <= fold_left (fun acc c => 10 * acc + digit_val c) l a) as H.
  { induction l as [|x l IH]; intros a Hl Ha; [exact Ha|].
    cbn [forallb] in Hl. apply andb_true_iff in Hl. destruct Hl as [Hx Hl].
    cbn [fold_left]. apply IH; [exact Hl|]. pose proof (is_digit_range x Hx). lia. }
  intro Hs. apply H; [exact Hs | lia].
Qed.

Lemma dec_digits_spec (fuel : nat) :
  forall (z : Z) (acc : jsstring),
    (0 < fuel)%nat ->
    0 <= z < 10 ^ Z.of_nat fuel ->
    exists ds,
      dec_digits fuel z acc = ds ++ acc
      /\ forallb is_digit ds = true
      /\ digits_val ds = z
      /\ ds <> []
      /\ (0 < z -> hd c_zero ds <> c_zero).
Proof.
  induction fuel as [|fuel IH]; intros z acc Hfuel Hz.
  - lia.
  - assert (0 <= z mod 10 <= 9) as Hmod by (Z.div_mod_to_equations; lia).
    cbn [dec_digits]. destruct (Z.ltb_spec z 10) as [Hlt | Hge].
    + exists [digit_char (z mod 10)]. rewrite Z.mod_small in * by lia.
      split; [reflexivity|]. split; [simpl; rewrite digit_char_is_digit by lia; reflexivity|].
      split; [unfold digits_val; simpl; rewrite digit_val_char by lia; lia|].
      split; [discriminate|]. intros Hpos. simpl. unfold digit_char, c_zero. lia.
    + assert (0 <= z / 10 < 10 ^ Z.of_nat fuel) as Hz'.
      { rewrite Nat2Z.inj_succ, Z.pow_succ_r in Hz by lia.
        split; [apply Z.div_pos; lia|]. apply Z.div_lt_upper_bound; lia. }
      assert (0 < fuel)%nat as Hfuel'.
      { destruct fuel; [|lia]. simpl in Hz'. assert (1 <= z / 10) by
          (apply Z.div_le_lower_bound; lia). lia. }
      destruct (IH (z / 10) (digit_char (z mod 10) :: acc) Hfuel' Hz')
        as (ds & Heq & Hdig & Hval & Hne & Hhd).
      exists (ds ++ [digit_char (z mod 10)]).
      split; [rewrite Heq, <- app_assoc; reflexivity|].
      split; [rewrite forallb_app, Hdig; simpl;
              rewrite digit_char_is_digit by lia; reflexivity|].
      split.
      { unfold digits_val in *. rewrite fold_left_app, Hval. cbn [fold_left].
        rewrite digit_val_char by lia. clear - Hz Hmod. Z.div_mod_to_equations. lia. }
      split; [destruct ds; discriminate|].
      intros _. destruct ds as [|c ds]; [contradiction|]. simpl.
      apply Hhd. apply Z.div_str_pos. lia.
Qed.

Lemma dec_of_Z_spec (z : Z) :
  0 <= z < 2 ^ 53 ->
  forallb is_digit (dec_of_Z z) = true
  /\ digits_val (dec_of_Z z) = z
  /\ dec_of_Z z <> []
  /\ (0 < z -> hd c_zero (dec_of_Z z) <> c_zero).
Proof.
  intro Hz. unfold dec_of_Z. destruct (Z.ltb_spec z 0); [lia|].
  assert (2 ^ 53 < 10 ^ Z.of_nat 400) as Hbig by (vm_compute; reflexivity).
  destruct (dec_digits_spec 400 z [] ltac:(lia) ltac:(lia)) as (ds & Heq & Hds).
  rewrite Heq, app_nil_r. exact Hds.
Qed.

Section IdentifierInLink.
Context {E : Engine}.

Lemma number_of_digits (s : jsstring) :
  s <> [] -> forallb is_digit s = true -> digits_val s < 2 ^ 53 ->
  NumberToString (StringToNumber s) = dec_of_Z (digits_val s).
Proof.
  intros Hne Hdig Hval. unfold StringToNumber.
  destruct s as [|c s]; [contradiction|].
  rewrite Hdig. destruct (Z.ltb_spec (digits_val (c :: s)) (2 ^ 53)); [|lia].
  cbn [andb]. unfold NumberToString. rewrite Qred_inject_Z.
  cbn [inject_Z Qden Qnum]. rewrite Pos.eqb_refl. cbn [andb].
  pose proof (digits_val_nonneg (c :: s) Hdig) as Hpos.
  destruct (Z.ltb_spec (Z.abs (digits_val (c :: s))) (10 ^ 21)) as [_ | Hbig];
    [reflexivity|].
  exfalso. assert (2 ^ 53 < 10 ^ 21) by (vm_compute; reflexivity). lia.
Qed.

Lemma padded_digits (s : jsstring) :
  s <> [] -> forallb is_digit s = true ->
  padStart0 10 s <> [] /\ forallb is_digit (padStart0 10 s) = true
  /\ digits_val (padStart0 10 s) = digits_val s.
Proof.
  intros Hne Hdig. unfold padStart0. split; [|split].
  - destruct s; [contradiction|]. intro H. apply app_eq_nil in H. destruct H. discriminate.
  - rewrite forallb_app, Hdig, andb_true_r.
    induction (10 - List.length s)%nat as [|k IH]; [reflexivity|]. simpl. exact IH.
  - apply digits_val_zeros.
Qed.

End IdentifierInLink.

(** X12. Leading zeros of the issuer identifier never reach the link: for an
    identifier written in decimal digits (below 2^53), padded to ten digits or
    not, both scripts put its value in decimal, without leading zeros, after
    https://www.sec.gov/Archives/edgar/data/, followed by the accession
    segment and the document name. *)
Theorem sec_link_drops_leading_zeros {E : Engine} :
  forall (s acc primary : jsstring),
    s <> [] -> forallb is_digit s = true -> digits_val s < 2 ^ 53 ->
    let id := dec_of_Z (digits_val s) in
    Script.sec_link (VStr (padStart0 10 s)) acc primary
    = archive_prefix ++ id ++ js "/" ++ acc ++ js "/" ++ primary
    /\ Script.sec_link (VStr s) acc primary
       = archive_prefix ++ id ++ js "/" ++ acc ++ js "/" ++ primary
    /\ Tools.sec_link (padStart0 10 s) acc primary
       = archive_prefix ++ id ++ js "/" ++ acc ++ js "/" ++ primary
    /\ digits_val id = digits_val s
    /\ (0 < digits_val s -> hd c_zero id <> c_zero).
Proof.
  intros s acc primary Hne Hdig Hval id.
  destruct (padded_digits s Hne Hdig) as (Hpne & Hpdig & Hpval).
  assert (0 <= digits_val s < 2 ^ 53) as Hrange.
  { split; [apply digits_val_nonneg; exact Hdig | exact Hval]. }
  destruct (dec_of_Z_spec (digits_val s) Hrange) as (_ & Hback & _ & Hhd).
  unfold Script.sec_link, Tools.sec_link. cbn [ToNumber].
  rewrite (number_of_digits (padStart0 10 s)) by (try assumption; lia).
  rewrite (number_of_digits s) by assumption.
  rewrite Hpval. fold id.
  repeat split; try reflexivity; assumption.
Qed.

Lemma sec_link_drops_leading_zeros_witness :
  let id := dec_of_Z (digits_val (js "123456")) in
  @Script.sec_link strict_engine (VStr (padStart0 10 (js "123456")))
     (js "000123456724000012") (js "ex1.htm")
  = archive_prefix ++ id ++ js "/" ++ js "000123456724000012" ++ js "/" ++ js "ex1.htm"
  /\ @Script.sec_link strict_engine (VStr (js "123456"))
       (js "000123456724000012") (js "ex1.htm")
     = archive_prefix ++ id ++ js "/" ++ js "000123456724000012" ++ js "/" ++ js "ex1.htm"
  /\ @Tools.sec_link strict_engine (padStart0 10 (js "123456"))
       (js "000123456724000012") (js "ex1.htm")
     = archive_prefix ++ id ++ js "/" ++ js "000123456724000012" ++ js "/" ++ js "ex1.htm"
  /\ digits_val id = digits_val (js "123456")
  /\ (0 < digits_val (js "123456") -> hd c_zero id <> c_zero).
Proof.
  apply (@sec_link_drops_leading_zeros strict_engine (js "123456")
           (js "000123456724000012") (js "ex1.htm")).
  - discriminate.
  - reflexivity.
  - reflexivity.
Defined.

(* ================================================================== *)
(** * Runs of the two scripts *)
(* ================================================================== *)

(** X13. A run of either script ends in one of two ways: it writes the file
    once and reports the number of records written, or it reports an error
    and exits with code 1 without having written anything.  Nothing else
    is logged, except the one warning of the guarded scrape. *)
Theorem runs_end_written_or_failed {E : Engine} :
  forall w : world,
    (exists before,
        at_most_the_warning before
        /\ (ends_written before (Script.main w) \/ ends_failed before (Script.main w)))
    /\ (ends_written [] (Tools.main w) \/ ends_failed [] (Tools.main w)).
Proof.
  intro w. split.
  - unfold Script.main, Script.main_body.
    destruct (resolveCikFromTicker w) as [c|m];
      [|exists []; split; [left; reflexivity | right; exists m; reflexivity]].
    destruct (if truthy c then Script.getSecRecentFilings w c else Normal [])
      as [sec|m];
      [|exists []; split; [left; reflexivity | right; exists m; reflexivity]].
    destruct (Script.scrapeOtcDisclosures w) as [otc|m'].
    + exists []. split; [left; reflexivity|].
      destruct (writeFile w _ _) as [[]|m].
      * left. eexists; eexists; reflexivity.
      * right. exists m. reflexivity.
    + eexists. split; [right; exists m'; reflexivity|].
      destruct (writeFile w _ _) as [[]|m].
      * left. eexists; eexists; reflexivity.
      * right. exists m. reflexivity.
  - unfold Tools.main, Tools.main_body.
    destruct (Tools.scrapeOtcDisclosures w) as [otc|m]; [|right; exists m; reflexivity].
    destruct (resolveCikFromTicker w) as [c|m]; [|right; exists m; reflexivity].
    destruct (if truthy c then _ else _) as [sec|m]; [|right; exists m; reflexivity].
    destruct (writeFile w _ _) as [[]|m].
    + left. eexists; eexists; reflexivity.
    + right. exists m. reflexivity.
Qed.

(** X14. A failure on the regulatory side is fatal in both scripts: when the
    ticker lookup throws, or when it resolves and every request to the
    submissions endpoint throws, the run reports that error and exits with
    code 1, and no file is written, whatever the page returns (in
    [tools/scrape-otc-and-sec.js], provided the scrape itself succeeded). *)
Theorem regulatory_failure_is_fatal {E : Engine} :
  forall (w : world) (m : jsstring),
    resolveCikFromTicker w = Throw m
    \/ (exists c, resolveCikFromTicker w = Normal c /\ truthy c = true
                  /\ forall url, fetch_json w url = Throw m) ->
    Script.main w = [ConsoleError m; ProcessExit 1]
    /\ match Tools.scrapeOtcDisclosures w with
       | Normal _ => Tools.main w = [ConsoleError m; ProcessExit 1]
       | Throw m' => Tools.main w = [ConsoleError m'; ProcessExit 1]
       end.
Proof.
  intros w m [Hlookup | (c & Hlookup & Hc & Hfetch)].
  - split.
    + unfold Script.main, Script.main_body. rewrite Hlookup. reflexivity.
    + unfold Tools.main, Tools.main_body.
      destruct (Tools.scrapeOtcDisclosures w); [rewrite Hlookup|]; reflexivity.
  - split.
    + unfold Script.main, Script.main_body. rewrite Hlookup, Hc.
      unfold Script.getSecRecentFilings. rewrite Hfetch. reflexivity.
    + unfold Tools.main, Tools.main_body.
      destruct (Tools.scrapeOtcDisclosures w); [|reflexivity].
      rewrite Hlookup, Hc. unfold Tools.getSecCompanySubmissionsJson.
      rewrite Hfetch. reflexivity.
Qed.

Lemma regulatory_failure_is_fatal_witness :
  @Script.main strict_engine lookup_fails
  = [ConsoleError (js "HTTP 403 for https://www.sec.gov/files/company_tickers.json");
     ProcessExit 1]
  /\ match @Tools.scrapeOtcDisclosures strict_engine lookup_fails with
     | Normal _ =>
         @Tools.main strict_engine lookup_fails
         = [ConsoleError (js "HTTP 403 for https://www.sec.gov/files/company_tickers.json");
            ProcessExit 1]
     | Throw m' => @Tools.main strict_engine lookup_fails = [ConsoleError m'; ProcessExit 1]
     end.
Proof.
  apply (@regulatory_failure_is_fatal strict_engine lookup_fails).
  left. reflexivity.
Defined.

Section Feeds.
Context {E : Engine}.





Lemma Script_sec_shaped (w : world) (c : value) (out : list item) :
  Script.getSecRecentFilings w c = Normal out -> Forall sec_shaped out.
Proof.
  unfold Script.getSecRecentFilings.
  destruct (fetch_json w _) as [json|m]; [|discriminate].
  cbn [bind]. destruct (filings_recent json) as [r|];
    [|intros [= <-]; constructor].
  rewrite Script_sec_loop_spec. cbv zeta.
  destruct (forallb _ _); [|discriminate]. intros [= <-].
  apply (kept_filings_shaped r (Nat.min (List.length (form r)) 200)
           (Script_filing c r)); [|lia].
  intros i Hi. apply filing_at_shaped. exact Hi.
Qed.

Lemma Script_scrape_from_rows (w : world) (otc : list item) :
  Script.scrapeOtcDisclosures w = Normal otc ->
  exists rows,
    page_rows w = Normal rows
    /\ Forall (fun x => from_row rows x /\ Script.complete x = true) otc.
Proof.
  unfold Script.scrapeOtcDisclosures.
  destruct (page_rows w) as [rows|m]; [|discriminate].
  cbn [bind]. destruct (map_toISO_total rows) as (mapped & -> & Hall).
  cbn [bind]. intros [= <-]. exists rows. split; [reflexivity|].
  apply filter_keeps_Forall. apply (mapped_from_rows _ _ Hall).
Qed.

Lemma Script_feed_invariant (w : world) (sec otc : list item) :
  Forall sec_shaped sec ->
  (otc = [] \/ Script.scrapeOtcDisclosures w = Normal otc) ->
  Forall (from_either_source w) (Script.mergeAndSort (sec ++ otc))
  /\ NoDup (List.map key (Script.mergeAndSort (sec ++ otc))).
Proof.
  intros Hsec Hotc. rewrite Script_mergeAndSort_eq. split.
  - apply Forall_forall. intros x Hx. apply sorted_map_members in Hx.
    destruct Hx as [Hx _]. apply in_app_or in Hx. destruct Hx as [Hx | Hx].
    + left. rewrite Forall_forall in Hsec. apply Hsec. exact Hx.
    + destruct Hotc as [-> | Hotc]; [contradiction|].
      destruct (Script_scrape_from_rows w otc Hotc) as (rows & Hrows & Hall).
      rewrite Forall_forall in Hall. destruct (Hall x Hx) as [Hfrom Hc].
      right. split.
      * apply complete_record_iff. unfold incomplete, missing.
        unfold Script.complete in Hc.
        apply andb_true_iff in Hc. destruct Hc as [Hc Hd].
        apply andb_true_iff in Hc. destruct Hc as [Ht Hl].
        rewrite Ht, Hl, Hd. reflexivity.
      * exists rows. split; assumption.
  - apply sorted_map_keys_distinct.
Qed.

End Feeds.



(** X16. Every feed the script with the guarded scrape writes goes to the
    path of WRITE_PATH (disclosures.json when the variable is not set) and
    holds no two records with the same key; each of its records is a
    regulatory record (source SEC, a kept form followed by " filed", a link
    under the archive) or a complete record made from a row of the page. *)
Theorem Script_feed_is_deduplicated {E : Engine} :
  forall (w : world) (path : jsstring) (items : list item),
    In (FileWritten path items) (Script.main w) ->
    path = Script.WRITE_PATH w
    /\ (env_WRITE_PATH w = VUndefined -> path = js "disclosures.json")
    /\ NoDup (List.map key items)
    /\ Forall (from_either_source w) items.
Proof.
  intros w path items Hin. unfold Script.main, Script.main_body in Hin.
  destruct (resolveCikFromTicker w) as [c|m];
    [|simpl in Hin; intuition discriminate].
  destruct (if truthy c then Script.getSecRecentFilings w c else Normal [])
    as [sec|m] eqn:Hsec; [|simpl in Hin; intuition discriminate].
  assert (Forall sec_shaped sec) as Hshaped.
  { destruct (truthy c); [exact (Script_sec_shaped w c sec Hsec)|].
    injection Hsec as <-. constructor. }
  assert (forall otc warned,
            (otc = [] \/ Script.scrapeOtcDisclosures w = Normal otc) ->
            In (FileWritten path items)
               (run_script
                  (let merged := Script.mergeAndSort (sec ++ otc) in
                   match writeFile w (Script.WRITE_PATH w) merged with
                   | Throw m => (warned, Throw m)
                   | Normal _ =>
                       (warned ++ [FileWritten (Script.WRITE_PATH w) merged;
                                   ConsoleLog (wrote_message (List.length merged)
                                                 (Script.WRITE_PATH w))],
                        Normal tt)
                   end)) ->
            (forall p i, ~ In (FileWritten p i) warned) ->
            path = Script.WRITE_PATH w
            /\ (env_WRITE_PATH w = VUndefined -> path = js "disclosures.json")
            /\ NoDup (List.map key items)
            /\ Forall (from_either_source w) items) as Hend.
  { intros otc warned Hotc Hev Hwarned. cbv zeta in Hev.
    destruct (Script_feed_invariant w sec otc Hshaped Hotc) as [Hall Hnd].
    destruct (writeFile w _ _) as [[]|m]; simpl in Hev.
    - apply in_app_or in Hev. destruct Hev as [Hev | [Hev | [Hev | []]]].
      + exfalso. exact (Hwarned _ _ Hev).
      + injection Hev as <- <-. split; [reflexivity|]. split; [|split; assumption].
        intro Henv. unfold Script.WRITE_PATH. rewrite Henv. reflexivity.
      + discriminate Hev.
    - apply in_app_or in Hev. destruct Hev as [Hev | Hev].
      + exfalso. exact (Hwarned _ _ Hev).
      + simpl in Hev. intuition discriminate. }
  destruct (Script.scrapeOtcDisclosures w) as [otc|m'] eqn:Hotc.
  - apply (Hend otc []); [right; reflexivity | exact Hin | intros p i []].
  - apply (Hend [] [ConsoleWarn [js "OTC scrape failed, continuing with SEC only:"; m']]);
      [left; reflexivity | exact Hin |].
    intros p i [H | []]. discriminate H.
Qed.

Lemma Script_feed_is_deduplicated_witness :
  js "disclosures.json" = @Script.WRITE_PATH scrape_fails
  /\ (env_WRITE_PATH scrape_fails = VUndefined
      -> js "disclosures.json" = js "disclosures.json")
  /\ NoDup (List.map key [filing_record (VStr (js "SEC EDGAR filing"))])
  /\ Forall (@from_either_source strict_engine scrape_fails)
            [filing_record (VStr (js "SEC EDGAR filing"))].
Proof.
  apply (@Script_feed_is_deduplicated strict_engine scrape_fails).
  right. left. vm_compute. reflexivity.
Defined.

(* ================================================================== *)
(** * More on pagination *)
(* ================================================================== *)


Section Pages.
Import Widget.

Lemma page_count_covers (st : state) :
  1 <= page_count st
  /\ Z.of_nat (List.length (filtered st)) <= 8 * page_count st
  /\ (0 < Z.of_nat (List.length (filtered st)) ->
      8 * (page_count st - 1) < Z.of_nat (List.length (filtered st))).
Proof.
  unfold page_count.
  pose proof (ceil_div_spec (Z.of_nat (List.length (filtered st))) PAGE_SIZE eq_refl) as H.
  unfold PAGE_SIZE in *. lia.
Qed.

Lemma renderPage_page (st : state) :
  page (fst (renderPage st)) = Z.min (Z.max 1 (page st)) (page_count st)
  /\ 1 <= page (fst (renderPage st)) <= page_count st.
Proof.
  pose proof (page_count_covers st) as [H1 _].
  unfold page_count in *. cbn [renderPage fst page]. lia.
Qed.



End Pages.




(* ================================================================== *)
(** * Trimming and matching *)
(* ================================================================== *)








Lemma trim_spaces (s : jsstring) : forallb is_space s = true -> trim s = [].
Proof.
  intro Hs. unfold trim.
  assert (trimStart s = []) as ->; [|reflexivity].
  induction s as [|c s IH]; [reflexivity|].
  simpl in Hs. apply andb_true_iff in Hs. destruct Hs as [Hc Hs].
  simpl. rewrite Hc. apply IH. exact Hs.
Qed.

Lemma array_sort_constant {A : Type} (l : list A) :
  array_sort (fun _ _ => 0) l = l.
Proof.
  unfold array_sort.
  assert (forall acc, fold_left (fun acc x => sort_insert (fun _ _ : A => 0) x acc) l acc
                      = acc ++ l) as H.
  { induction l as [|x l IH]; intro acc; simpl; [symmetry; apply app_nil_r|].
    rewrite IH.
    assert (forall m, sort_insert (fun _ _ : A => 0) x m = m ++ [x]) as ->.
    { induction m as [|y m IHm]; [reflexivity|]. simpl. rewrite IHm. reflexivity. }
    rewrite <- app_assoc. reflexivity. }
  apply H.
Qed.

(* ================================================================== *)
(** * The widget: normalizing, filtering, loading *)
(* ================================================================== *)

Lemma canonical_parts (s : jsstring) :
  is_canonical s = true ->
  exists y m d,
    parse_date_only s = Some (y, m, d) /\ legal_date y m d = true
    /\ 0 <= y <= 9999
    /\ s = pad 4 y ++ js "-" ++ pad 2 m ++ js "-" ++ pad 2 d.
Proof.
  unfold is_canonical.
  destruct (parse_date_only s) as [[[y m] d]|] eqn:Hp; [|discriminate].
  intro Hlegal. exists y, m, d. split; [reflexivity|]. split; [exact Hlegal|].
  unfold parse_date_only in Hp.
  destruct s as [|y1 [|y2 [|y3 [|y4 [|h1 [|m1 [|m2 [|h2 [|d1 [|d2 [|x s]]]]]]]]]]];
    try discriminate.
  destruct (forallb is_digit [y1; y2; y3; y4; m1; m2; d1; d2]
            && N.eqb h1 c_dash && N.eqb h2 c_dash) eqn:Hshape; [|discriminate].
  injection Hp as <- <- <-.
  apply andb_true_iff in Hshape. destruct Hshape as [Hshape Hh2].
  apply andb_true_iff in Hshape. destruct Hshape as [Hdig Hh1].
  apply N.eqb_eq in Hh1, Hh2. subst h1 h2.
  cbn [forallb] in Hdig.
  repeat (apply andb_true_iff in Hdig; destruct Hdig as [? Hdig]).
  destruct (pad4_digits y1 y2 y3 y4) as [Hy4 Hyr]; try assumption.
  split; [exact Hyr|].
  rewrite Hy4, (pad2_digits m1 m2), (pad2_digits d1 d2) by assumption.
  reflexivity.
Qed.

Lemma midnight_clock (t : Z) :
  TimeWithinDay t = 0 ->
  HourFromTime t = 0 /\ MinFromTime t = 0 /\ SecFromTime t = 0 /\ msFromTime t = 0.
Proof.
  unfold TimeWithinDay, HourFromTime, MinFromTime, SecFromTime, msFromTime,
    msPerDay, msPerHour, msPerMinute, msPerSecond.
  intro H. Z.div_mod_to_equations. lia.
Qed.

Section Consumer.
Context {E : Engine} {L : Locale}.

(** A canonical date reads as the midnight that starts its day. *)
Lemma canonical_midnight (s : jsstring) :
  is_canonical s = true ->
  exists t,
    Date_parse s = Some t
    /\ toISOString (Some t) = Normal (s ++ js "T00:00:00.000Z").
Proof.
  intro Hs. destruct (canonical_parts s Hs) as (y & m & d & Hp & Hlegal & Hy & Heq).
  destruct (civil_of_midnight y m d Hy Hlegal) as (HY & HM & HD & HC & HT).
  destruct (midnight_clock _ HT) as (Hh & Hmin & Hsec & Hms).
  eexists. split.
  - unfold Date_parse. rewrite Hp, Hlegal. exact HC.
  - unfold toISOString. rewrite HY, HM, HD, Hh, Hmin, Hsec, Hms.
    unfold year_string.
    destruct (Z.leb_spec 0 y); [|lia]. destruct (Z.leb_spec y 9999); [|lia].
    cbn [andb]. replace (m - 1 + 1) with m by lia.
    rewrite Heq. rewrite <- !app_assoc. reflexivity.
Qed.


End Consumer.


(** X21. The widget reads a date of the feed back as the pipeline wrote it:
    for a feed element whose date is a canonical date, [normalize] gives the
    time value of the midnight (UTC) that starts that day, which prints as
    that date followed by T00:00:00.000Z. *)
Theorem normalize_reads_canonical_dates {E : Engine} :
  forall (it : Widget.feed_item) (d : jsstring),
    Widget.f_date it = VStr d ->
    is_canonical d = true ->
    exists t,
      Widget.e_date (Widget.normalize it) = Some t
      /\ Date_parse d = Some t
      /\ toISOString (Some t) = Normal (d ++ js "T00:00:00.000Z").
Proof.
  intros it d Hd Hcan.
  destruct (canonical_midnight d Hcan) as (t & Hparse & Hiso).
  exists t. split; [|split; assumption].
  unfold Widget.normalize. cbn. rewrite Hd, (canonical_nonempty d Hcan).
  cbn [Date_new]. rewrite Hparse. reflexivity.
Qed.

Lemma normalize_reads_canonical_dates_witness :
  exists t,
    Widget.e_date
      (@Widget.normalize strict_engine
         {| Widget.f_title := VStr (js " 8-K filed ");
            Widget.f_description := VNull; Widget.f_link := VUndefined;
            Widget.f_date := VStr (js "2024-03-01"); Widget.f_datetime := VUndefined |})
    = Some t
    /\ @Date_parse strict_engine (js "2024-03-01") = Some t
    /\ toISOString (Some t) = Normal (js "2024-03-01" ++ js "T00:00:00.000Z").
Proof.
  apply (@normalize_reads_canonical_dates strict_engine _ (js "2024-03-01"));
    reflexivity.
Defined.

Lemma Sorted_refine {A : Type} (R R' : A -> A -> Prop) (P : A -> Prop) (l : list A) :
  (forall a b, P a -> P b -> R a b -> R' a b) ->
  Forall P l -> Sorted R l -> Sorted R' l.
Proof.
  intros Himp HP HS. induction HS as [|a l _ IH Hhd]; [constructor|].
  inversion HP as [|? ? Ha HP']; subst.
  constructor; [apply IH; exact HP'|].
  destruct Hhd as [|b l Hab]; constructor.
  inversion HP' as [|? ? Hb _]; subst. apply Himp; assumption.
Qed.

Section Filtering.
Context {L : Locale}.
Import Widget.

Lemma applyFilters_state (q mode : jsstring) (st : state) :
  fst (applyFilters q mode st)
  = {| raw := raw st;
       filtered := array_sort (by_mode mode)
                     (filter (matches (toLowerCase (trim q))) (raw st));
       page := 1 |}.
Proof.
  unfold applyFilters. cbv zeta.
  set (st1 := {| raw := raw st; filtered := _; page := 1 |}).
  pose proof (renderPage_page st1) as [Hp _].
  pose proof (page_count_covers st1) as [H1 _].
  assert (page (fst (renderPage st1)) = 1) as Hpage by (rewrite Hp; cbn [page st1]; lia).
  destruct (fst (renderPage st1)) as [r f p] eqn:Hst.
  cbn [page] in Hpage. subst p.
  assert (r = raw st1 /\ f = filtered st1) as [-> ->].
  { change r with (raw {| raw := r; filtered := f; page := 1 |}).
    change f with (filtered {| raw := r; filtered := f; page := 1 |}) at 2.
    rewrite <- Hst. split; reflexivity. }
  reflexivity.
Qed.

Lemma date_minus_asym (a b : entry) :
  (date_minus a b >? 0) = true -> (date_minus b a >? 0) = false.
Proof.
  unfold date_minus. destruct (e_date a), (e_date b); try discriminate.
  intro H. apply Z.gtb_lt in H.
  destruct (Z.gtb_spec (z0 - z) 0); [lia | reflexivity].
Qed.


End Filtering.


(** X23. With the sort control on date_desc the entries shown are in
    non-increasing order of date, and on date_asc in non-decreasing order,
    when every entry of [raw] has a valid date (as the entries [normalize]
    makes have). *)
Theorem applyFilters_orders_by_date {L : Locale} :
  forall (q : jsstring) (st : Widget.state),
    Forall (fun e => exists t, Widget.e_date e = Some t) (Widget.raw st) ->
    Sorted not_dated_after
      (Widget.filtered (fst (Widget.applyFilters q (js "date_desc") st)))
    /\ Sorted (fun a b => not_dated_after b a)
         (Widget.filtered (fst (Widget.applyFilters q (js "date_asc") st))).
Proof.
  intros q st Hvalid. rewrite !applyFilters_state. cbn [Widget.filtered].
  set (shown := filter _ (Widget.raw st)).
  assert (forall cmp, Forall (fun e => exists t, Widget.e_date e = Some t)
                             (array_sort cmp shown)) as Hall.
  { intro cmp. apply Forall_forall. intros e He.
    apply (Permutation_in _ (array_sort_perm cmp shown)) in He.
    apply filter_In in He. rewrite Forall_forall in Hvalid. apply Hvalid. tauto. }
  split.
  - change (Widget.by_mode (js "date_desc")) with (fun a b => Widget.date_minus b a).
    eapply Sorted_refine; [|apply Hall|apply array_sort_sorted].
    + intros a b [p Hp] [r Hr] Hab. exists p, r. split; [exact Hp|]. split; [exact Hr|].
      unfold Widget.date_minus in Hab. rewrite Hp, Hr in Hab.
      destruct (Z.gtb_spec (r - p) 0); [discriminate | lia].
    + intros a b. apply date_minus_asym.
  - change (Widget.by_mode (js "date_asc")) with (fun a b => Widget.date_minus a b).
    eapply Sorted_refine; [|apply Hall|apply array_sort_sorted].
    + intros a b [p Hp] [r Hr] Hab. exists r, p. split; [exact Hr|]. split; [exact Hp|].
      unfold Widget.date_minus in Hab. rewrite Hp, Hr in Hab.
      destruct (Z.gtb_spec (p - r) 0); [discriminate | lia].
    + intros a b. apply date_minus_asym.
Qed.

Lemma applyFilters_orders_by_date_witness :
  Sorted not_dated_after
    (Widget.filtered
       (fst (@Widget.applyFilters plain_locale (js "report") (js "date_desc") three_loaded)))
  /\ Sorted (fun a b => not_dated_after b a)
       (Widget.filtered
          (fst (@Widget.applyFilters plain_locale (js "report") (js "date_asc") three_loaded))).
Proof.
  apply (@applyFilters_orders_by_date plain_locale (js "report") three_loaded).
  repeat constructor; eexists; reflexivity.
Defined.

(** X24. With a value of the sort control that is none of date_desc,
    date_asc, title_asc and title_desc, the entries shown are the matching
    entries of [raw] in the order of [raw]. *)
Theorem applyFilters_keeps_order_in_other_modes {L : Locale} :
  forall (q mode : jsstring) (st : Widget.state),
    existsb (str_eqb mode) known_modes = false ->
    Widget.filtered (fst (Widget.applyFilters q mode st))
    = filter (Widget.matches (toLowerCase (trim q))) (Widget.raw st).
Proof.
  intros q mode st Hmode. rewrite applyFilters_state. cbn [Widget.filtered].
  unfold known_modes in Hmode. cbn [existsb] in Hmode.
  repeat (apply orb_false_iff in Hmode; destruct Hmode as [? Hmode]).
  assert (Widget.by_mode mode = fun _ _ => 0) as ->.
  { unfold Widget.by_mode.
    repeat match goal with H : str_eqb mode _ = false |- _ => rewrite H; clear H end.
    reflexivity. }
  apply array_sort_constant.
Qed.

Lemma applyFilters_keeps_order_in_other_modes_witness :
  Widget.filtered (fst (@Widget.applyFilters plain_locale (js "report") (js "none") three_loaded))
  = filter (@Widget.matches plain_locale (@toLowerCase plain_locale (trim (js "report"))))
           (Widget.raw three_loaded).
Proof.
  apply (@applyFilters_keeps_order_in_other_modes plain_locale (js "report") (js "none")
           three_loaded).
  reflexivity.
Defined.

Section Loading.
Context {E : Engine}.
Import Widget.





End Loading.



(* ================================================================== *)
(** * The ticker lookups *)
(* ================================================================== *)


Section Lookups.
Context {E : Engine} {L : Locale}.


Lemma padded_cik_number (c : Z) :
  0 < c < 2 ^ 53 ->
  padded_cik (cik_number c) = VStr (padStart0 10 (dec_of_Z c)).
Proof.
  intro Hc. unfold padded_cik, cik_number. cbn [scalar_truthy scalar_String].
  assert (Qeq_bool (inject_Z c) 0 = false) as ->.
  { destruct (Qeq_bool (inject_Z c) 0) eqn:Hq; [|reflexivity].
    apply Qeq_bool_eq in Hq. unfold Qeq, inject_Z in Hq. simpl in Hq. lia. }
  cbn [negb]. unfold NumberToString. rewrite Qred_inject_Z.
  cbn [inject_Z Qden Qnum]. rewrite Pos.eqb_refl. cbn [andb].
  destruct (Z.ltb_spec (Z.abs c) (10 ^ 21)) as [_ | Hbig]; [reflexivity|].
  exfalso. assert (2 ^ 53 < 10 ^ 21) by (vm_compute; reflexivity). lia.
Qed.

Lemma Script_find_first (pre post : list (option ticker_row)) (row : ticker_row)
  (ticker : value) :
  Forall (fun r => exists v, r = Some v
                   /\ toUpperCase (scalar_String (row_ticker v))
                      <> toUpperCase (ToString ticker)) pre ->
  toUpperCase (scalar_String (row_ticker row)) = toUpperCase (ToString ticker) ->
  Script.find_hit (pre ++ Some row :: post) ticker = Normal (Some row).
Proof.
  intros Hpre Hrow. induction Hpre as [|r pre (v & -> & Hne) _ IH]; simpl.
  - rewrite Hrow, str_eqb_refl. reflexivity.
  - apply str_eqb_neq in Hne. rewrite Hne. exact IH.
Qed.


Lemma Tools_find_first (pre post : list (option company)) (c : company)
  (tickers : list scalar) (ticker : jsstring) :
  Forall (fun r => exists x, r = Some x
                   /\ match company_tickers x with
                      | Some ts => Tools.some_ticker ts ticker = false
                      | None => True
                      end) pre ->
  company_tickers c = Some tickers ->
  Tools.some_ticker tickers ticker = true ->
  Tools.find_hit (pre ++ Some c :: post) ticker = Normal (Some c).
Proof.
  intros Hpre Htickers Hsome. induction Hpre as [|r pre (x & -> & Hx) _ IH]; simpl.
  - rewrite Htickers, Hsome. reflexivity.
  - destruct (company_tickers x) as [ts|]; [rewrite Hx|]; exact IH.
Qed.



End Lookups.

(** X27. [resolveCikFromTicker] of the script with [getJson] returns the
    identifier of the first directory entry whose ticker equals the wanted
    one after upper-casing both, padded with zeros to ten digits; the
    digits read back as the identifier, and the link [getSecRecentFilings]
    builds from the result carries the identifier without the padding. *)
Theorem Script_lookup_returns_first_match {E : Engine} {L : Locale} :
  forall (pre post : list (option ticker_row)) (row : ticker_row) (ticker : value) (c : Z),
    Forall (fun r => exists v, r = Some v
                     /\ toUpperCase (scalar_String (row_ticker v))
                        <> toUpperCase (ToString ticker)) pre ->
    toUpperCase (scalar_String (row_ticker row)) = toUpperCase (ToString ticker) ->
    row_cik_str row = cik_number c ->
    0 < c < 2 ^ 53 ->
    Script.resolveCikFromTicker (Normal (pre ++ Some row :: post)) ticker
    = Normal (VStr (padStart0 10 (dec_of_Z c)))
    /\ forallb is_digit (padStart0 10 (dec_of_Z c)) = true
    /\ digits_val (padStart0 10 (dec_of_Z c)) = c
    /\ (forall acc primary,
          Script.sec_link (VStr (padStart0 10 (dec_of_Z c))) acc primary
          = archive_prefix ++ dec_of_Z c ++ js "/" ++ acc ++ js "/" ++ primary).
Proof.
  intros pre post row ticker c Hpre Hrow Hcik Hc.
  destruct (dec_of_Z_spec c ltac:(lia)) as (Hdig & Hval & Hne & _).
  destruct (padded_digits (dec_of_Z c) Hne Hdig) as (Hpne & Hpdig & Hpval).
  split; [|split; [exact Hpdig | split; [rewrite Hpval; exact Hval|]]].
  - unfold Script.resolveCikFromTicker. cbn [bind].
    rewrite (Script_find_first pre post row ticker Hpre Hrow). cbn [bind].
    rewrite Hcik, (padded_cik_number c Hc). reflexivity.
  - intros acc primary. unfold Script.sec_link. cbn [ToNumber].
    rewrite (number_of_digits (padStart0 10 (dec_of_Z c)) Hpne Hpdig)
      by (rewrite Hpval, Hval; lia).
    rewrite Hpval, Hval. reflexivity.
Qed.

Lemma Script_lookup_returns_first_match_witness :
  @Script.resolveCikFromTicker strict_engine plain_locale
     (Normal ([ Some {| row_cik_str := cik_number 320193;
                        row_ticker := SValue (VStr (js "AAPL")) |} ]
              ++ Some {| row_cik_str := cik_number 123456;
                         row_ticker := SValue (VStr (js "Tuth")) |}
              :: [ Some {| row_cik_str := cik_number 999999;
                           row_ticker := SValue (VStr (js "TUTH")) |} ]))
     (VStr (js "TUTH"))
  = Normal (VStr (padStart0 10 (dec_of_Z 123456)))
  /\ forallb is_digit (padStart0 10 (dec_of_Z 123456)) = true
  /\ digits_val (padStart0 10 (dec_of_Z 123456)) = 123456
  /\ (forall acc primary,
        @Script.sec_link strict_engine (VStr (padStart0 10 (dec_of_Z 123456))) acc primary
        = archive_prefix ++ dec_of_Z 123456 ++ js "/" ++ acc ++ js "/" ++ primary).
Proof.
  apply (@Script_lookup_returns_first_match strict_engine plain_locale).
  - constructor; [|constructor]. eexists. split; [reflexivity|].
    intro H. vm_compute in H. discriminate H.
  - reflexivity.
  - reflexivity.
  - vm_compute. split; reflexivity.
Defined.

(** X28. [resolveCikFromTicker] of [tools/scrape-otc-and-sec.js] returns the
    identifier of the first company with a [tickers] array that holds the
    wanted ticker, upper-casing both, padded with zeros to ten digits;
    companies whose [tickers] is not an array are passed over. *)
Theorem Tools_lookup_returns_first_match {E : Engine} {L : Locale} :
  forall (pre post : list (option company)) (co : company) (tickers : list scalar)
         (ticker : jsstring) (c : Z),
    Forall (fun r => exists x, r = Some x
                     /\ match company_tickers x with
                        | Some ts => Tools.some_ticker ts ticker = false
                        | None => True
                        end) pre ->
    company_tickers co = Some tickers ->
    Tools.some_ticker tickers ticker = true ->
    company_cik_str co = cik_number c ->
    0 < c < 2 ^ 53 ->
    Tools.resolveCikFromTicker (Normal (Some (pre ++ Some co :: post))) ticker
    = Normal (VStr (padStart0 10 (dec_of_Z c)))
    /\ forallb is_digit (padStart0 10 (dec_of_Z c)) = true
    /\ digits_val (padStart0 10 (dec_of_Z c)) = c.
Proof.
  intros pre post co tickers ticker c Hpre Htickers Hsome Hcik Hc.
  destruct (dec_of_Z_spec c ltac:(lia)) as (Hdig & Hval & Hne & _).
  destruct (padded_digits (dec_of_Z c) Hne Hdig) as (_ & Hpdig & Hpval).
  split; [|split; [exact Hpdig | rewrite Hpval; exact Hval]].
  unfold Tools.resolveCikFromTicker. cbn [bind].
  rewrite (Tools_find_first pre post co tickers ticker Hpre Htickers Hsome). cbn [bind].
  rewrite Hcik, (padded_cik_number c Hc). reflexivity.
Qed.

Lemma Tools_lookup_returns_first_match_witness :
  @Tools.resolveCikFromTicker strict_engine plain_locale
     (Normal (Some ([ Some {| company_cik_str := cik_number 320193;
                              company_tickers := Some [SValue (VStr (js "AAPL"))] |};
                      Some {| company_cik_str := cik_number 555555;
                              company_tickers := None |} ]
                    ++ Some {| company_cik_str := cik_number 123456;
                               company_tickers :=
                                 Some [SValue (VStr (js "TUTHW")); SValue (VStr (js "tuth"))] |}
                    :: [])))
     (js "TUTH")
  = Normal (VStr (padStart0 10 (dec_of_Z 123456)))
  /\ forallb is_digit (padStart0 10 (dec_of_Z 123456)) = true
  /\ digits_val (padStart0 10 (dec_of_Z 123456)) = 123456.
Proof.
  apply (@Tools_lookup_returns_first_match strict_engine plain_locale
           _ _ _ [SValue (VStr (js "TUTHW")); SValue (VStr (js "tuth"))]).
  - constructor; [|constructor; [|constructor]].
    + eexists. split; [reflexivity|]. reflexivity.
    + eexists. split; [reflexivity|]. exact I.
  - reflexivity.
  - reflexivity.
  - reflexivity.
  - vm_compute. split; reflexivity.
Defined.


(** X30. When loading fails and the search box holds nothing but white
    space, the widget shows exactly one card, that of the placeholder
    entry, with the range 1 to 1 of 1 and both buttons disabled. *)
Theorem failed_load_shows_the_placeholder {E : Engine} {L : Locale} :
  forall (fetched : completion Widget.response) (q mode m : jsstring),
    Widget.load fetched = Throw m ->
    forallb is_space q = true ->
    let v := snd (snd (Widget.init fetched q mode)) in
    Widget.cards v = [Widget.card_of Widget.placeholder]
    /\ Widget.info_from v = 1 /\ Widget.info_to v = 1 /\ Widget.info_total v = 1
    /\ Widget.prev_disabled v = true /\ Widget.next_disabled v = true.
Proof.
  intros fetched q mode m Hload Hq v. unfold v, Widget.init. rewrite Hload.
  cbn [snd]. unfold Widget.applyFilters. cbv zeta. cbn [Widget.raw].
  rewrite (trim_spaces q Hq). change (toLowerCase []) with (@nil N).
  cbn [filter Widget.matches]. repeat split.
Qed.

Lemma failed_load_shows_the_placeholder_witness :
  let v := snd (snd (@Widget.init strict_engine plain_locale
                       (Throw (js "TypeError: Failed to fetch"))
                       (js "  ") (js "date_desc"))) in
  Widget.cards v = [Widget.card_of (@Widget.placeholder strict_engine)]
  /\ Widget.info_from v = 1 /\ Widget.info_to v = 1 /\ Widget.info_total v = 1
  /\ Widget.prev_disabled v = true /\ Widget.next_disabled v = true.
Proof.
  apply (@failed_load_shows_the_placeholder strict_engine plain_locale
           (Throw (js "TypeError: Failed to fetch")) (js "  ") (js "date_desc")
           (js "TypeError: Failed to fetch")).
  - reflexivity.
  - reflexivity.
Defined.
